(** * Korad KA3xxxP control library: a shallow embedding and its properties

    The development follows the Python sources:
    - [korad3005p/util.py]       : [flatten_dict], [listify_dict];
    - [korad3005p/korad3005p.py] : class [Korad3005p] (transport, status
      decoding, setpoints, slew engine, presets);
    - [korad_charge.py]          : class [KoradLipoCharger] (CC/CV charge loop
      and its SIGINT handler);
    - [korad_log.py]             : class [KoradCsvApp] (CSV data logger);
    - [korad_control.py]         : class [KoradApp] (command-line actions).

    Python [str] and [bytes] are both [string] (8-bit characters), Python
    [int] is [Z], fixed-key dictionaries are records, and the serial port,
    the wall clock and the log file live in an explicit [world] threaded by
    a state-and-exception monad.  Python's [float] and the builtins that
    touch it are an interface, [PyFloat], so every general theorem holds for
    whatever arithmetic implements it; [QModel] instantiates it with exact
    rationals to run the code on concrete inputs. *)

From Stdlib Require Import ZArith QArith String Ascii List Lia.
From stdpp Require Import base option list strings gmap sorting pretty.

Local Open Scope string_scope.
Local Open Scope list_scope.
Local Open Scope Z_scope.

(** ** Python floats *)

(** The operations of Python's [float] that the sources use.  Only finite
    values are modelled ([int(x)] and formatting are total). *)
Class PyFloat := {
  float : Type;
  of_int : Z → float;                    (* implicit int -> float conversion *)
  fadd : float → float → float;          (* x + y *)
  fsub : float → float → float;          (* x - y *)
  fmul : float → float → float;          (* x * y *)
  fdiv : float → float → float;          (* x / y, y non-zero *)
  fle : float → float → bool;            (* x <= y *)
  flt : float → float → bool;            (* x < y *)
  half : float;                          (* the literal 0.5 *)
  trunc : float → Z;                     (* int(x): truncation toward zero *)
  float_of_str : string → option float;  (* float(s); None is ValueError *)
  fmt : nat → float → string;            (* format spec .<n>f *)
  isoformat : float → string;            (* datetime.isoformat() *)
}.

(** ** Exceptions and outcomes *)

Inductive exn :=
| Exception (msg : string)
| IndexError
| KeyError (key : string)
| ValueError
| ZeroDivisionError
| SystemExit (code : Z).

(** [Diverge] is the outcome of a loop that has not finished within the
    iteration budget it was given. *)
Inductive outcome (A : Type) :=
| Return (a : A)
| Raise (e : exn)
| Diverge.
Arguments Return {A} a.
Arguments Raise {A} e.
Arguments Diverge {A}.

(** ** Strings on the wire *)

Definition LF : string := String "010" EmptyString.

(** [s.encode('ascii', errors='ignore')] and
    [b.decode('ascii', errors='ignore')]: characters above 127 are dropped. *)
Fixpoint ascii_ignore (s : string) : string :=
  match s with
  | EmptyString => EmptyString
  | String c r =>
      if (nat_of_ascii c <? 128)%nat then String c (ascii_ignore r)
      else ascii_ignore r
  end.

(** ** korad3005p/util.py *)

Section Util.
Context {V : Type}.

(** A nested dictionary: a leaf value or a dictionary whose [items()] are
    listed in insertion order. *)
#[warnings="-register-all"]
Inductive pyobj :=
| Leaf (v : V)
| Dict (items : list (string * pyobj)).

(** The key of the comprehension:
    [prefix + separator + k if prefix else k]. *)
Definition flat_key (separator prefix k : string) : string :=
  match prefix with
  | EmptyString => k
  | _ => prefix +:+ separator +:+ k
  end.

(** The dictionary comprehension inserts in iteration order, a later
    insertion of the same key replacing the earlier value.  The result is
    a finite map: the order inside one recursive result cannot change the
    mapping, because [flat_key] is injective in [k]. *)
Fixpoint flatten_dict (dd : pyobj) (separator prefix : string)
  : gmap string V :=
  match dd with
  | Dict items =>
      (fix comprehension (its : list (string * pyobj)) (acc : gmap string V)
         : gmap string V :=
         match its with
         | [] => acc
         | (kk, vv) :: rest =>
             comprehension rest
               (foldl (λ a kv, <[flat_key separator prefix kv.1 := kv.2]> a)
                  acc (map_to_list (flatten_dict vv separator kk)))
         end) items ∅
  | Leaf v => {[ prefix := v ]}
  end.

(** Python compares [str] lexicographically by code point. *)
Definition str_le (a b : string) : Prop := String.leb a b = true.

#[global] Instance str_le_dec a b : Decision (str_le a b).
Proof. unfold str_le. apply _. Defined.

(** [sorted(flat.keys())] *)
Definition sorted_keys (flat : gmap string V) : list string :=
  merge_sort str_le (map_to_list flat).*1.

(** [listify_dict(data, labels_only)]: a list of labels ([inl]) or of
    values ([inr]); [None] stands for the [KeyError] of [flat[k]]. *)
Definition listify_dict (data : pyobj) (labels_only : bool)
  : option (list (string + V)) :=
  let flat := flatten_dict data "_" "" in
  let keys := sorted_keys flat in
  if labels_only then Some (inl <$> keys)
  else mapM (λ k, inr <$> flat !! k) keys.
End Util.
Arguments pyobj V : clear implicits.

(** ** The world and the monad *)

Section Korad.
Context {FL : PyFloat}.

(** CSV cells. *)
Inductive pyval :=
| VStr (s : string)
| VBool (b : bool)
| VFloat (x : float).

(** A Python number: [time.sleep] takes an [int] or a [float]. *)
Inductive number :=
| Int (n : Z)
| Float (x : float).

Definition to_float (d : number) : float :=
  match d with Int n => of_int n | Float x => x end.

(** [d < 0] *)
Definition negative (d : number) : bool :=
  match d with Int n => n <? 0 | Float x => flt x (of_int 0) end.

Inductive event :=
| Tx (b : string)          (* bytes written to the serial port *)
| Sleep (d : number)       (* time.sleep(d) *)
| Open (path : string)     (* the log file is opened for writing *)
| Row (cells : list (string + pyval))   (* csv.writer.writerow *)
| Close.                   (* the log file is closed *)

(** [device n] is what the [n]-th [readline()] on the port returns; the
    empty string is a read that timed out.  [ofh] is the charger's open
    log file, if any. *)
Record world := {
  device : nat → string;
  reads : nat;
  clock : float;
  ofh : option string;
  trace : list event;
}.

Definition M (A : Type) : Type := world → outcome A * world.

#[global] Instance M_ret : MRet M := λ A a w, (Return a, w).
#[global] Instance M_bind : MBind M := λ A B f m w,
  match m w with
  | (Return a, w') => f a w'
  | (Raise e, w') => (Raise e, w')
  | (Diverge, w') => (Diverge, w')
  end.

Definition raise {A} (e : exn) : M A := λ w, (Raise e, w).
Definition diverge {A} : M A := λ w, (Diverge, w).

Definition emit (e : event) : M unit := λ w,
  (Return tt,
   {| device := device w; reads := reads w; clock := clock w;
      ofh := ofh w; trace := trace w ++ [e] |}).

(** [self.s.write(b)] *)
Definition serial_write (b : string) : M unit := emit (Tx b).

(** [self.s.readline()]: always a [bytes] object, empty after a timeout. *)
Definition serial_readline : M string := λ w,
  (Return (device w (reads w)),
   {| device := device w; reads := S (reads w); clock := clock w;
      ofh := ofh w; trace := trace w |}).

(** [time.time()] and [datetime.datetime.now()] *)
Definition time_time : M float := λ w, (Return (clock w), w).

(** [time.sleep(d)]: [ValueError] on a negative length. *)
Definition time_sleep (d : number) : M unit := λ w,
  if negative d then (Raise ValueError, w)
  else (Return tt,
        {| device := device w; reads := reads w;
           clock := fadd (clock w) (to_float d);
           ofh := ofh w; trace := trace w ++ [Sleep d] |}).

Definition set_ofh (o : option string) : M unit := λ w,
  (Return tt,
   {| device := device w; reads := reads w; clock := clock w;
      ofh := o; trace := trace w |}).

Definition get_ofh : M (option string) := λ w, (Return (ofh w), w).

(** ** class Korad3005p: transport *)

Definition _cmdbn (c : string) : M unit :=
  serial_write (ascii_ignore (c +:+ LF)).

(** The result is what [readline()] returned, never Python's [None]. *)
Definition _cmdb (c : string) : M (option string) :=
  _cmdbn c;; b ← serial_readline; mret (Some b).

(** [self._cmdb(c).decode('ascii', errors='ignore')]; on [None] the
    attribute lookup would fail. *)
Definition _cmds (c : string) : M string :=
  r ← _cmdb c;
  match r with
  | Some b => mret (ascii_ignore b)
  | None => raise (Exception "AttributeError")
  end.

(** ** Setpoints *)

Definition _append10 (c : string) (t : bool) : string :=
  c +:+ (if t then "1" else "0").

Definition enable (on : bool) : M unit := _cmdbn (_append10 "OUT" on).

Definition disable (off : bool) : M unit := enable (negb off).

Definition enableOVP (on : bool) : M unit := _cmdbn (_append10 "OVP" on).

Definition enableOCP (on : bool) : M unit := _cmdbn (_append10 "OCP" on).

Definition setVolts (v : float) : M unit := _cmdbn ("VSET1:" +:+ fmt 2 v).

Definition setCurr (i : float) : M unit := _cmdbn ("ISET1:" +:+ fmt 2 i).

Definition m_store (n : Z) : M unit :=
  if (0 <? n) && (n <=? 5) then _cmdbn ("SAV" +:+ pretty n) else mret tt.

Definition m_recall (n : Z) : M unit :=
  if (0 <? n) && (n <=? 5) then _cmdbn ("RCL" +:+ pretty n) else mret tt.

(** ** Status decoding *)

Inductive mode := CV | CC.
Inductive tracking_mode := independent | parallel | series.

Record status_dict := {
  ch0_mode : mode;
  ch1_mode : mode;
  tracking : tracking_mode;
  beep : bool;
  lock : bool;
  output : bool;
}.

Record settings_dict := { set_volts : float; set_curr : float }.

Record output_dict := {
  out_volts : float;
  out_curr : float;
  out_power : float;
}.

Record hw_dict := { version : string; model : string; serial : string }.

Record time_dict := { iso : string; epoch : float }.

(** The dictionary returned by [status()]. *)
Record snapshot := {
  s_status : status_dict;
  s_settings : settings_dict;
  s_output : output_dict;
  s_hw : hw_dict;
  s_time : time_dict;
}.

(** Truth value of a Python [int]. *)
Definition truthy (n : Z) : bool := negb (n =? 0).

(** The [status] dictionary literal of [status()], as a function of
    [s_byte]. *)
Definition status_bits (s_byte : Z) : status_dict :=
  let trk_bits := Z.land (Z.shiftr s_byte 2) 3 in
  {| ch0_mode := if truthy (Z.land s_byte 1) then CV else CC;
     ch1_mode := if truthy (Z.land s_byte 2) then CV else CC;
     tracking := if trk_bits =? 0 then independent
                 else if trk_bits =? 3 then parallel else series;
     beep := if truthy (Z.land s_byte 16) then true else false;
     lock := if truthy (Z.land s_byte 32) then true else false;
     output := if truthy (Z.land s_byte 64) then true else false |}.

(** [float(s)] *)
Definition py_float (s : string) : M float :=
  match float_of_str s with
  | Some x => mret x
  | None => raise ValueError
  end.

(** [self.hw], set once by [__init__]. *)
Variable self_hw : hw_dict.

Definition status : M snapshot :=
  s ← _cmdb "STATUS?";
  match s with
  | None => raise (Exception "Could not get PSU status")
  | Some EmptyString => raise IndexError          (* s[0] on b'' *)
  | Some (String c _) =>
      let s_byte := Z.of_nat (nat_of_ascii c) in
      now ← time_time;
      let timestamps := {| iso := isoformat now; epoch := now |} in
      let status := status_bits s_byte in
      sv ← _cmds "VSET1?" ≫= py_float;
      sc ← _cmds "ISET1?" ≫= py_float;
      let settings := {| set_volts := sv; set_curr := sc |} in
      v ← _cmds "VOUT1?" ≫= py_float;
      i ← _cmds "IOUT1?" ≫= py_float;
      let output := {| out_volts := v; out_curr := i; out_power := fmul v i |} in
      mret {| s_status := status; s_settings := settings; s_output := output;
              s_hw := self_hw; s_time := timestamps |}
  end.

(** ** Slew engine *)

(** [s['settings'][what]] *)
Definition settings_get (st : settings_dict) (what : string) : M float :=
  if String.eqb what "volts" then mret (set_volts st)
  else if String.eqb what "curr" then mret (set_curr st)
  else raise (KeyError what).

(** [x / n] for an [int] [n]. *)
Definition truediv (x : float) (n : Z) : M float :=
  if n =? 0 then raise ZeroDivisionError else mret (fdiv x (of_int n)).

(** [int(v * 1000 + 0.5) / 1000] *)
Definition round3 (v : float) : float :=
  fdiv (of_int (trunc (fadd (fmul v (of_int 1000)) half))) (of_int 1000).

(** The body of [for i in range(count)], run [n] times from [v]. *)
Fixpoint slew_loop (fn : option (float → M unit)) (incr time_step : float)
    (n : nat) (v : float) : M unit :=
  match n with
  | O => mret tt
  | S n' =>
      let v := fadd v incr in
      let v := round3 v in
      (if fn is Some f then f v else mret tt);;
      time_sleep (Float time_step);;
      slew_loop fn incr time_step n' v
  end.

Definition _slew (what : string) (end_ : float) (count : Z) (duration : number)
  : M unit :=
  s ← status;
  start ← settings_get (s_settings s) what;
  incr ← truediv (fsub end_ start) count;
  time_step ← truediv (to_float duration) count;
  let v := start in
  fn ← (if String.eqb what "volts" then mret (Some setVolts)
        else if String.eqb what "curr" then mret (Some setCurr)
        else raise (Exception ("No function found. What was " +:+ what)));
  slew_loop fn incr time_step (Z.to_nat count) v;;
  if fn is Some f then f end_ else mret tt.

Definition slewVolts (end_v : float) (count : Z) (duration : number) : M unit :=
  _slew "volts" end_v count duration.

Definition slewCurr (end_v : float) (count : Z) (duration : number) : M unit :=
  _slew "curr" end_v count duration.

(** ** The snapshot as the nested dictionary handed to [listify_dict] *)

Definition mode_str (m : mode) : string :=
  match m with CV => "CV" | CC => "CC" end.

Definition tracking_str (t : tracking_mode) : string :=
  match t with
  | independent => "independent"
  | parallel => "parallel"
  | series => "series"
  end.

Definition snapshot_dict (s : snapshot) : pyobj pyval :=
  Dict [
    ("status", Dict [
       ("ch0_mode", Leaf (VStr (mode_str (ch0_mode (s_status s)))));
       ("ch1_mode", Leaf (VStr (mode_str (ch1_mode (s_status s)))));
       ("tracking", Leaf (VStr (tracking_str (tracking (s_status s)))));
       ("beep", Leaf (VBool (beep (s_status s))));
       ("lock", Leaf (VBool (lock (s_status s))));
       ("output", Leaf (VBool (output (s_status s)))) ]);
    ("settings", Dict [
       ("volts", Leaf (VFloat (set_volts (s_settings s))));
       ("curr", Leaf (VFloat (set_curr (s_settings s)))) ]);
    ("output", Dict [
       ("volts", Leaf (VFloat (out_volts (s_output s))));
       ("curr", Leaf (VFloat (out_curr (s_output s))));
       ("power", Leaf (VFloat (out_power (s_output s)))) ]);
    ("hw", Dict [
       ("version", Leaf (VStr (version (s_hw s))));
       ("model", Leaf (VStr (model (s_hw s))));
       ("serial", Leaf (VStr (serial (s_hw s)))) ]);
    ("time", Dict [
       ("iso", Leaf (VStr (iso (s_time s))));
       ("epoch", Leaf (VFloat (epoch (s_time s)))) ])
  ].

(** ** korad_charge.py: class KoradLipoCharger *)

(** The command-line arguments that [charge] reads. *)
Record args := {
  capacity : float;
  rate : float;
  volts : float;
  cutoff : float;
  max_time : Z;
  check_interval : Z;
  log : option string;
}.

(** [self.csvw.writerow(korad3005p.listify_dict(s, labels_only))] *)
Definition writerow (s : snapshot) (labels_only : bool) : M unit :=
  match listify_dict (snapshot_dict s) labels_only with
  | Some cells => emit (Row cells)
  | None => raise (KeyError "")
  end.

(** The [if self.csvw:] block of the loop: the header row on the first
    iteration, then the row of values; the result is the new value of
    [first_iter].  [self.csvw] is set exactly when [self.ofh] is. *)
Definition log_snapshot (s : snapshot) (first_iter : bool) : M bool :=
  csvw ← get_ofh;
  if csvw is Some _ then
    first_iter ← (if first_iter then writerow s true;; mret false
                  else mret first_iter);
    writerow s false;;
    mret first_iter
  else mret first_iter.

(** The [while not finished and now < end_time] loop.  [fuel] bounds the number of iterations;
    the result is the value of [finished] when the loop exits. *)
Fixpoint charge_loop (fuel : nat) (a : args) (eoc_current now end_time : float)
    (finished first_iter : bool) : M bool :=
  if negb finished && flt now end_time then
    match fuel with
    | O => diverge
    | S fuel' =>
        s ← status;
        first_iter ← log_snapshot s first_iter;
        if fle (out_curr (s_output s)) eoc_current then
          charge_loop fuel' a eoc_current now end_time true first_iter
        else
          time_sleep (Int (check_interval a));;
          charge_loop fuel' a eoc_current now end_time finished first_iter
    end
  else mret finished.

(** [if self.ofh: self.ofh.close()] *)
Definition close_ofh : M unit :=
  o ← get_ofh;
  if o is Some _ then emit Close else mret tt.

(** [charge()]; the value returned is [finished] at the exit of the loop,
    which tells the two exits of the loop apart. *)
Definition charge (fuel : nat) (a : args) : M bool :=
  disable true;;
  let cc_current := fmul (capacity a) (rate a) in
  let eoc_current := fmul (capacity a) (cutoff a) in
  let cv_voltage := volts a in
  (if log a is Some path then emit (Open path);; set_ofh (Some path)
   else mret tt);;
  time_sleep (Int 5);;
  setVolts cv_voltage;;
  setCurr cc_current;;
  enable true;;
  let finished := false in
  now ← time_time;
  let end_time := fadd now (of_int (max_time a * 3600)) in
  time_sleep (Int 1);;
  let first_iter := true in
  finished ← charge_loop fuel a eoc_current now end_time finished first_iter;
  disable true;;
  close_ofh;;
  mret finished.

(** The SIGINT handler installed by [__init__]. *)
Definition graceful_exit : M unit :=
  disable true;;
  close_ofh;;
  raise (SystemExit 1).

(** The serial commands of a trace, in the order they were written. *)
Fixpoint commands (t : list event) : list string :=
  match t with
  | [] => []
  | Tx b :: t' => b :: commands t'
  | _ :: t' => commands t'
  end.

(** ** Vocabulary of the statements *)

(** The world after the events [es]. *)
Definition sent (w : world) (es : list event) : world :=
  {| device := device w; reads := reads w; clock := clock w;
     ofh := ofh w; trace := trace w ++ es |}.

(** The five queries of one [status()] call. *)
Definition poll_queries : list string :=
  ["STATUS?" +:+ LF; "VSET1?" +:+ LF; "ISET1?" +:+ LF;
   "VOUT1?" +:+ LF; "IOUT1?" +:+ LF].

(** The measured current that a [status()] whose first read is read
    number [r] reports, when the device answers the status query and its
    four numeric answers parse. *)
Definition measured (dev : nat → string) (r : nat) : option float :=
  match dev r with
  | EmptyString => None
  | _ =>
      _ ← float_of_str (ascii_ignore (dev (S r)));
      _ ← float_of_str (ascii_ignore (dev (S (S r))));
      _ ← float_of_str (ascii_ignore (dev (S (S (S r)))));
      float_of_str (ascii_ignore (dev (S (S (S (S r))))))
  end.

(** The bytes that [setVolts(v)] (for ['volts']) or [setCurr(v)] (for
    any other selector) writes. *)
Definition setpoint_cmd (what : string) (v : float) : string :=
  ascii_ignore
    ((if String.eqb what "volts" then "VSET1:" else "ISET1:")
       +:+ fmt 2 v +:+ LF).

(** The serial writes and the sleeps of a trace. *)
Fixpoint timeline (t : list event) : list event :=
  match t with
  | [] => []
  | Tx b :: t' => Tx b :: timeline t'
  | Sleep d :: t' => Sleep d :: timeline t'
  | _ :: t' => timeline t'
  end.

(** The last serial command of the world is the output-disable command. *)
Definition ends_disabled (w : world) : Prop :=
  last (commands (trace w)) = Some ("OUT0" +:+ LF).

#[global] Instance mode_eq_dec : EqDecision mode.
Proof. solve_decision. Defined.

#[global] Instance tracking_eq_dec : EqDecision tracking_mode.
Proof. solve_decision. Defined.

(** The bit table of the status byte. *)
Definition bit_table (s_byte : Z) : Prop :=
  let s := status_bits s_byte in
  ch0_mode s = (if Z.testbit s_byte 0 then CV else CC)
  ∧ ch1_mode s = (if Z.testbit s_byte 1 then CV else CC)
  ∧ tracking s =
      (match Z.testbit s_byte 3, Z.testbit s_byte 2 with
       | false, false => independent
       | true, true => parallel
       | _, _ => series
       end)
  ∧ beep s = Z.testbit s_byte 4
  ∧ lock s = Z.testbit s_byte 5
  ∧ output s = Z.testbit s_byte 6.

#[global] Instance bit_table_dec s_byte : Decision (bit_table s_byte).
Proof. unfold bit_table. cbv zeta. apply _. Defined.

(** The world after one successful [status()]: five queries written,
    five lines read. *)
Definition polled (w : world) : world :=
  {| device := device w; reads := 5 + reads w; clock := clock w;
     ofh := ofh w; trace := trace w ++ (Tx <$> poll_queries) |}.

(** The setter that [_slew] selects for a valid selector. *)
Definition setter (what : string) : float → M unit :=
  if String.eqb what "volts" then setVolts else setCurr.

(** [step_interval = duration / count] *)
Definition step_interval (duration : number) (count : Z) : float :=
  fdiv (to_float duration) (of_int count).

(** The values that the loop of [_slew] hands to the setter, from the
    accumulator [v]: each is the three-decimal rounding of the previous
    one plus the increment. *)
Fixpoint slew_values (incr : float) (n : nat) (v : float) : list float :=
  match n with
  | O => []
  | S n' => let v' := round3 (fadd v incr) in v' :: slew_values incr n' v'
  end.

(** The values of a ramp whose accumulator [u] is never rounded, only
    the value handed to the setter is (the reading of the specification,
    section 9). *)
Fixpoint unfed_values (incr : float) (n : nat) (u : float) : list float :=
  match n with
  | O => []
  | S n' => let u' := fadd u incr in round3 u' :: unfed_values incr n' u'
  end.

(** One setpoint command and one sleep per ramp step. *)
Fixpoint ramp_events (what : string) (time_step : float) (vs : list float)
  : list event :=
  match vs with
  | [] => []
  | v :: vs' =>
      Tx (setpoint_cmd what v) :: Sleep (Float time_step)
        :: ramp_events what time_step vs'
  end.

(** [eoc_current = capacity * cutoff] and [cc_current = capacity * rate] *)
Definition eoc_current (a : args) : float := fmul (capacity a) (cutoff a).
Definition cc_current (a : args) : float := fmul (capacity a) (rate a).

(** The world when [charge] enters its loop: output switched off, log
    opened, five seconds slept, setpoints written, output switched on,
    one second slept. *)
Definition armed (a : args) (w : world) : world :=
  {| device := device w; reads := reads w;
     clock := fadd (fadd (clock w) (of_int 5)) (of_int 1);
     ofh := if log a is Some path then Some path else ofh w;
     trace := trace w
       ++ [Tx ("OUT0" +:+ LF)]
       ++ (if log a is Some path then [Open path] else [])
       ++ [Sleep (Int 5);
           Tx (setpoint_cmd "volts" (volts a));
           Tx (setpoint_cmd "curr" (cc_current a));
           Tx ("OUT1" +:+ LF);
           Sleep (Int 1)] |}.

(** [now] and [end_time] as [charge] computes them, once, before the
    loop. *)
Definition start_time (w : world) : float := fadd (clock w) (of_int 5).
Definition end_time (a : args) (w : world) : float :=
  fadd (start_time w) (of_int (max_time a * 3600)).

(** The measured current that poll number [k] (from 0) of a session
    started in [w] reports. *)
Definition poll_current (w : world) (k : nat) : option float :=
  measured (device w) (reads w + 5 * k)%nat.

(** Poll [k] is answered with a current above, or not above, the
    end-of-charge current. *)
Definition above_eoc (a : args) (w : world) (k : nat) : Prop :=
  ∃ i, poll_current w k = Some i ∧ fle i (eoc_current a) = false.
Definition at_eoc (a : args) (w : world) (k : nat) : Prop :=
  ∃ i, poll_current w k = Some i ∧ fle i (eoc_current a) = true.

(** [n] polls, each followed by the sleep of the check interval. *)
Fixpoint charging_timeline (n : nat) (interval : Z) : list event :=
  match n with
  | O => []
  | S n' =>
      (Tx <$> poll_queries) ++ Sleep (Int interval)
        :: charging_timeline n' interval
  end.

(** The clock after [n] sleeps of length [d]. *)
Fixpoint slept (n : nat) (d : float) (c : float) : float :=
  match n with
  | O => c
  | S n' => slept n' d (fadd c d)
  end.

(** The events with which [charge] leaves its loop: the output-disable
    command, and the closing of the log file if one is open. *)
Definition closing (w : world) : list event :=
  Tx ("OUT0" +:+ LF) :: (if ofh w is Some _ then [Close] else []).

(** The serial writes and sleeps of [charge] before its loop. *)
Definition arming_timeline (a : args) : list event :=
  [Tx ("OUT0" +:+ LF);
   Sleep (Int 5);
   Tx (setpoint_cmd "volts" (volts a));
   Tx (setpoint_cmd "curr" (cc_current a));
   Tx ("OUT1" +:+ LF);
   Sleep (Int 1)].

End Korad.

(** ** An executable float model: exact rationals *)

Module QModel.

Definition is_digit (c : ascii) : bool :=
  ((48 <=? nat_of_ascii c) && (nat_of_ascii c <=? 57))%nat.

(** The number written by a string of decimal digits, most significant
    first, continuing from [acc]; [None] on any other character. *)
Fixpoint digits (s : string) (acc : Z) : option Z :=
  match s with
  | EmptyString => Some acc
  | String c r =>
      if is_digit c then digits r (10 * acc + Z.of_nat (nat_of_ascii c - 48))
      else None
  end.

(** Split at the first full stop. *)
Fixpoint split_dot (s : string) : string * option string :=
  match s with
  | EmptyString => (EmptyString, None)
  | String c r =>
      if Ascii.eqb c "." then (EmptyString, Some r)
      else let '(a, b) := split_dot r in (String c a, b)
  end.

Definition unsigned_of_str (s : string) : option Q :=
  let '(ip, fp) := split_dot s in
  let fp := default EmptyString fp in
  if (String.length ip + String.length fp =? 0)%nat then None
  else
    i ← digits ip 0;
    f ← digits fp 0;
    let scale := 10 ^ Z.of_nat (String.length fp) in
    Some (Qred (Qmake (i * scale + f) (Z.to_pos scale))).

(** [float(s)] on plain decimal numerals: an optional sign, digits, an
    optional full stop and digits.  Everything else is [ValueError]. *)
Definition Q_of_str (s : string) : option Q :=
  match s with
  | String "-" r => Qopp <$> unsigned_of_str r
  | String "+" r => unsigned_of_str r
  | _ => unsigned_of_str s
  end.

(** Round a non-negative rational to the nearest integer, ties to even. *)
Definition round_half_even (q : Q) : Z :=
  let n := Qnum q in
  let d := Zpos (Qden q) in
  let fl := n / d in
  let r := 2 * (n mod d) in
  if r <? d then fl
  else if d <? r then fl + 1
  else if Z.even fl then fl else fl + 1.

Fixpoint zeros (n : nat) : string :=
  match n with
  | O => EmptyString
  | S n' => String "0" (zeros n')
  end.

Definition pad_left (n : nat) (s : string) : string :=
  zeros (n - String.length s) +:+ s.

Definition fmt_abs (n : nat) (q : Q) : string :=
  let scale := 10 ^ Z.of_nat n in
  let r := round_half_even (Qmult q (inject_Z scale)) in
  let ip := pretty (r / scale) in
  match n with
  | O => ip
  | _ => ip +:+ "." +:+ pad_left n (pretty (r mod scale))
  end.

(** [f'{q:.<n>f}'] *)
Definition Q_fmt (n : nat) (q : Q) : string :=
  if Qle_bool 0 q then fmt_abs n q else "-" +:+ fmt_abs n (Qopp q).

#[export] Instance Qfloat : PyFloat := {|
  float := Q;
  of_int := inject_Z;
  fadd x y := Qred (Qplus x y);
  fsub x y := Qred (Qminus x y);
  fmul x y := Qred (Qmult x y);
  fdiv x y := Qred (Qdiv x y);
  fle := Qle_bool;
  flt x y := negb (Qle_bool y x);
  half := Qmake 1 2;
  trunc q := Z.quot (Qnum q) (Zpos (Qden q));
  float_of_str := Q_of_str;
  fmt := Q_fmt;
  (* the instant is shown as seconds since the epoch *)
  isoformat := Q_fmt 6;
|}.

Definition hw0 : hw_dict :=
  {| version := "4.2"; model := "KA3005P"; serial := "12345678" |}.

(** A world at time [t] with nothing written yet. *)
Definition world0 (dev : nat → string) (t : Q) : world :=
  {| device := dev; reads := 0; clock := t; ofh := None; trace := [] |}.

(** A device that answers the [n]-th read with the [n]-th line of a
    script and times out once the script is exhausted. *)
Definition script (lines : list string) : nat → string :=
  λ n, nth n lines EmptyString.

End QModel.

(** ** Regular expressions, as far as the identification pattern needs *)

(** A literal character or [\d]. *)
Inductive atom :=
| Lit (c : ascii)
| Digit.

(** [a], [a+], [a?] (both greedy) and the parentheses of a group. *)
Inductive item :=
| One (a : atom)
| Many (a : atom)
| Maybe (a : atom)
| GroupOpen
| GroupClose.

(** The subject is ASCII (it was decoded with [errors='ignore']), so [\d]
    is one of [0] to [9]. *)
Definition isdigit (c : ascii) : bool :=
  ((48 <=? nat_of_ascii c) && (nat_of_ascii c <=? 57))%nat.

Definition atom_matches (a : atom) (c : ascii) : bool :=
  match a with
  | Lit l => Ascii.eqb l c
  | Digit => isdigit c
  end.

(** The text of the open group grows with each character consumed. *)
Definition push (c : ascii) (cur : option string) : option string :=
  (λ t, t +:+ String c EmptyString) <$> cur.

(** Backtracking match of the pattern [p] at the start of [s]: a greedy
    quantifier first tries to take one more character and falls back when
    the rest of the pattern fails.  [cur] is the text of the group being
    read, [caps] the groups closed so far; the result is the list of the
    groups, in the order of their numbers. *)
Fixpoint match_here (p : list item) (s : string) (cur : option string)
    (caps : list string) : option (list string) :=
  match p with
  | [] => Some caps
  | One a :: p' =>
      match s with
      | String c s' =>
          if atom_matches a c then match_here p' s' (push c cur) caps else None
      | EmptyString => None
      end
  | Maybe a :: p' =>
      match
        match s with
        | String c s' =>
            if atom_matches a c then match_here p' s' (push c cur) caps
            else None
        | EmptyString => None
        end
      with
      | Some r => Some r
      | None => match_here p' s cur caps
      end
  | Many a :: p' =>
      (fix many (s : string) (cur : option string) : option (list string) :=
         match s with
         | String c s' =>
             if atom_matches a c then
               match many s' (push c cur) with
               | Some r => Some r
               | None => match_here p' s' (push c cur) caps
               end
             else None
         | EmptyString => None
         end) s cur
  | GroupOpen :: p' => match_here p' s (Some EmptyString) caps
  | GroupClose :: p' => match_here p' s None (caps ++ [default EmptyString cur])
  end.

(** [re.search(p, s)]: the match at the leftmost position that has one. *)
Fixpoint re_search (p : list item) (s : string) : option (list string) :=
  match match_here p s None [] with
  | Some r => Some r
  | None =>
      match s with
      | String _ s' => re_search p s'
      | EmptyString => None
      end
  end.

(** The literal characters of a string, one after the other. *)
Fixpoint lits (s : string) : list item :=
  match s with
  | EmptyString => []
  | String c s' => One (Lit c) :: lits s'
  end.

(** [r'KORAD KA(\d+)P V(\d+\.?\d+) SN:(\d+)'] *)
Definition idn_pattern : list item :=
  lits "KORAD KA" ++ [GroupOpen; Many Digit; GroupClose]
    ++ lits "P V"
    ++ [GroupOpen; Many Digit; Maybe (Lit "."); Many Digit; GroupClose]
    ++ lits " SN:" ++ [GroupOpen; Many Digit; GroupClose].

(** ** The applications: handshake, data logger, command-line tool *)

Section Apps.
Context {FL : PyFloat}.

(** [Korad3005p.__init__] on an open port; the result is [self.hw].  The
    value of [_cmds] is a [str], never [None]. *)
Definition __init__ : M hw_dict :=
  _cmdb "";;
  reply ← _cmds "*IDN?";
  match Some reply with
  | None => raise (Exception "Could not get response from PSU")
  | Some init_str =>
      match re_search idn_pattern init_str with
      | Some [m1; m2; m3] =>
          mret {| version := m2; model := "KA" +:+ m1 +:+ "P"; serial := m3 |}
      | _ => raise (Exception ("Could not identify a Korad PSU: " +:+ init_str))
      end
  end.

(** [self.hw], set once by [__init__]. *)
Variable self_hw : hw_dict.

(** *** korad_log.py: class KoradCsvApp *)

Record log_args := {
  log_output : string;
  log_rate : float;
  log_duration : float;
}.

(** [writeLine(data, first)] *)
Definition writeLine (data : snapshot) (first : bool) : M unit :=
  (if first then writerow data true else mret tt);;
  writerow data false.

(** [x / y] for two floats. *)
Definition float_div (x y : float) : M float :=
  if fle y (of_int 0) && fle (of_int 0) y then raise ZeroDivisionError
  else mret (fdiv x y).

(** [with open(path, 'w', ...) as self.ofh: body]: the file is closed when
    the body returns and when it raises. *)
Definition with_open (path : string) (body : M unit) : M unit := λ w,
  match (emit (Open path);; set_ofh (Some path);; body) w with
  | (Return a, w') => emit Close w'
  | (Raise e, w') => (Raise e, (emit Close w').2)
  | (Diverge, w') => (Diverge, w')
  end.

(** The [while now < end] loop of [go]; [fuel] bounds its iterations. *)
Fixpoint sample_loop (fuel : nat) (end_ period now deadline : float)
    (first : bool) : M unit :=
  if flt now end_ then
    match fuel with
    | O => diverge
    | S fuel' =>
        now ← time_time;
        data ← status self_hw;
        writeLine data first;;
        let first := false in
        let sleep_time := fsub deadline now in
        let deadline := fadd deadline period in
        (if flt (of_int 0) sleep_time then time_sleep (Float sleep_time)
         else mret tt);;
        sample_loop fuel' end_ period now deadline first
    end
  else mret tt.

(** [KoradCsvApp.go] *)
Definition log_go (fuel : nat) (a : log_args) : M unit :=
  with_open (log_output a)
    (now ← time_time;
     let end_ := fadd now (log_duration a) in
     period ← float_div (of_int 1) (log_rate a);
     let deadline := fadd now period in
     let first := true in
     sample_loop fuel end_ period now deadline first).

(** [KoradCsvApp.graceful_exit]: close the file if there is one, exit. *)
Definition log_graceful_exit : M unit :=
  close_ofh;;
  raise (SystemExit 1).

(** *** korad_control.py: class KoradApp *)

Record ctl_args := {
  ctl_volts : option float;
  ctl_curr : option float;
  ctl_slew : option (Z * Z);
  ctl_enable : bool;
  ctl_disable : bool;
  ctl_status : bool;
  ctl_json : bool;
  ctl_clock : bool;
  ctl_recall : option Z;
  ctl_store : option Z;
  ctl_ocp_on : bool;
  ctl_ocp_off : bool;
  ctl_ovp_on : bool;
  ctl_ovp_off : bool;
}.

(** [time.localtime()]: the hour, minute and second of an instant in the
    local time zone. *)
Variable localtime : float → Z * Z * Z.

(** [Korad3005p.showTime] *)
Definition showTime : M unit :=
  disable true;;
  now ← time_time;
  let '(tm_hour, tm_min, tm_sec) := localtime now in
  let t_num := fadd (of_int tm_hour) (fdiv (of_int tm_min) (of_int 100)) in
  let i_num := fdiv (of_int tm_sec) (of_int 100) in
  setVolts t_num;;
  setCurr i_num.

(** [while True: self.k.showTime(); time.sleep(1)] *)
Fixpoint clock_loop (fuel : nat) : M unit :=
  match fuel with
  | O => diverge
  | S fuel' => showTime;; time_sleep (Int 1);; clock_loop fuel'
  end.

(** [KoradApp.showStatus] and the [--json] branch both take a snapshot and
    print it. *)
Definition showStatus : M unit := status self_hw;; mret tt.

Definition when (c : bool) (m : M unit) : M unit := if c then m else mret tt.

(** [KoradApp.go] *)
Definition ctl_go (fuel : nat) (a : ctl_args) : M unit :=
  (if ctl_volts a is Some v then
     if ctl_slew a is Some (count, time) then slewVolts self_hw v count (Int time)
     else setVolts v
   else mret tt);;
  (if ctl_curr a is Some i then
     if ctl_slew a is Some (count, time) then slewCurr self_hw i count (Int time)
     else setCurr i
   else mret tt);;
  when (ctl_enable a) (enable true);;
  when (ctl_disable a) (disable true);;
  when (ctl_ovp_on a) (enableOVP true);;
  when (ctl_ovp_on a) (enableOVP false);;
  when (ctl_ocp_on a) (enableOCP true);;
  when (ctl_ocp_on a) (enableOCP false);;
  (if ctl_recall a is Some n then m_recall n else mret tt);;
  (if ctl_store a is Some n then m_store n else mret tt);;
  when (ctl_json a) showStatus;;
  when (ctl_status a) showStatus;;
  when (ctl_clock a) (clock_loop fuel).

End Apps.

(** ** Vocabulary of the further statements *)

(** A character of 7-bit ASCII. *)
Definition seven_bit (c : ascii) : Prop := (nat_of_ascii c < 128)%nat.

(** The leaves of a nested dictionary in insertion order, each with the
    name that [flatten_dict] gives it. *)
Fixpoint flat_items {V} (dd : pyobj V) (separator prefix : string)
  : list (string * V) :=
  match dd with
  | Dict items =>
      (fix each (its : list (string * pyobj V)) : list (string * V) :=
         match its with
         | [] => []
         | (kk, vv) :: rest =>
             (prod_map (flat_key separator prefix) id
                <$> flat_items vv separator kk) ++ each rest
         end) items
  | Leaf v => [(prefix, v)]
  end.

(** The sixteen column names of a logged snapshot, in the order of the
    header row. *)
Definition csv_header : list string :=
  ["hw_model"; "hw_serial"; "hw_version";
   "output_curr"; "output_power"; "output_volts";
   "settings_curr"; "settings_volts";
   "status_beep"; "status_ch0_mode"; "status_ch1_mode"; "status_lock";
   "status_output"; "status_tracking";
   "time_epoch"; "time_iso"].

(** A string of decimal digits. *)
Fixpoint all_digits (s : string) : bool :=
  match s with
  | EmptyString => true
  | String c r => isdigit c && all_digits r
  end.

(** The string is empty or starts with a character that is no digit. *)
Definition no_digit_ahead (s : string) : bool :=
  match s with
  | EmptyString => true
  | String c _ => negb (isdigit c)
  end.

(** The text of the open group after the characters of [t]. *)
Definition extend (cur : option string) (t : string) : option string :=
  (λ x, x +:+ t) <$> cur.

(** The identification line of a supply. *)
Definition idn_line (m v1 v2 sn : string) : string :=
  "KORAD KA" +:+ m +:+ "P V" +:+ v1 +:+ "." +:+ v2 +:+ " SN:" +:+ sn.

Section Frames.
Context {FL : PyFloat}.

(** The world after the handshake: an empty command and the
    identification query written, two lines read. *)
Definition greeted (w : world) : world :=
  {| device := device w; reads := 2 + reads w; clock := clock w;
     ofh := ofh w; trace := trace w ++ [Tx LF; Tx ("*IDN?" +:+ LF)] |}.

(** The fields of a snapshot in the order of [csv_header]. *)
Definition csv_row (s : snapshot) : list pyval :=
  [VStr (model (s_hw s)); VStr (serial (s_hw s)); VStr (version (s_hw s));
   VFloat (out_curr (s_output s)); VFloat (out_power (s_output s));
   VFloat (out_volts (s_output s));
   VFloat (set_curr (s_settings s)); VFloat (set_volts (s_settings s));
   VBool (beep (s_status s)); VStr (mode_str (ch0_mode (s_status s)));
   VStr (mode_str (ch1_mode (s_status s))); VBool (lock (s_status s));
   VBool (output (s_status s)); VStr (tracking_str (tracking (s_status s)));
   VFloat (epoch (s_time s)); VStr (iso (s_time s))].

(** [w'] continues [w]: the same device script and log file, no read
    taken back, and a trace that extends the trace of [w]. *)
Definition grows (w w' : world) : Prop :=
  (∃ es, trace w' = trace w ++ es)
  ∧ device w' = device w ∧ ofh w' = ofh w ∧ (reads w ≤ reads w')%nat.

(** A computation that only ever continues the world it starts in,
    however it ends. *)
Definition appends {A} (m : M A) : Prop := ∀ w, grows w (m w).2.

(** The text of the line that read number [k] after the current one
    returns, decoded. *)
Definition reply (w : world) (k : nat) : string :=
  ascii_ignore (device w (k + reads w)).

(** A computation that writes nothing to the supply but the queries of
    snapshots, however it ends. *)
Definition passive {A} (m : M A) : Prop :=
  ∀ w, ∃ es, trace (m w).2 = trace w ++ es
             ∧ Forall (λ c, c ∈ poll_queries) (commands es).


(** Command-line arguments of the control tool that ask for nothing
    except, possibly, the protection switches. *)
Definition protection_only (a : ctl_args) : Prop :=
  ctl_volts a = None ∧ ctl_curr a = None
  ∧ ctl_enable a = false ∧ ctl_disable a = false
  ∧ ctl_recall a = None ∧ ctl_store a = None
  ∧ ctl_json a = false ∧ ctl_status a = false ∧ ctl_clock a = false.

(** The same arguments with other values of [--ovp-off] and [--ocp-off]. *)
Definition with_off_flags (a : ctl_args) (ovp_off ocp_off : bool) : ctl_args :=
  {| ctl_volts := ctl_volts a; ctl_curr := ctl_curr a; ctl_slew := ctl_slew a;
     ctl_enable := ctl_enable a; ctl_disable := ctl_disable a;
     ctl_status := ctl_status a; ctl_json := ctl_json a;
     ctl_clock := ctl_clock a; ctl_recall := ctl_recall a;
     ctl_store := ctl_store a; ctl_ocp_on := ctl_ocp_on a;
     ctl_ocp_off := ocp_off; ctl_ovp_on := ctl_ovp_on a;
     ctl_ovp_off := ovp_off |}.

(** The world in which the body of [with open(path, 'w') as self.ofh]
    starts. *)
Definition opened (path : string) (w : world) : world :=
  {| device := device w; reads := reads w; clock := clock w;
     ofh := Some path; trace := trace w ++ [Open path] |}.


End Frames.

(** * Properties *)

(** ** Flattening (util.py) *)

Section UtilFacts.
Context {V : Type}.
Implicit Types (m : gmap string V) (ks : list string) (row : list V).

#[local] Instance str_le_total : Total str_le.
Proof. intros a b. apply String.leb_total. Qed.

Lemma sorted_keys_perm m : sorted_keys m ≡ₚ (map_to_list m).*1.
Proof. apply merge_sort_Permutation. Qed.

Lemma sorted_keys_elem m k : k ∈ sorted_keys m ↔ is_Some (m !! k).
Proof.
  rewrite sorted_keys_perm, list_elem_of_fmap. split.
  - intros ([k' v] & -> & Hin). apply elem_of_map_to_list in Hin. by exists v.
  - intros [v Hv]. exists (k, v). split; [done|]. by apply elem_of_map_to_list.
Qed.

Lemma sorted_keys_nodup m : NoDup (sorted_keys m).
Proof. rewrite sorted_keys_perm. apply NoDup_fst_map_to_list. Qed.

(** [[flat[k] for k in keys]] raises no [KeyError] when every key is in
    [flat]. *)
Lemma lookups_total m ks :
  (∀ k, k ∈ ks → is_Some (m !! k)) →
  ∃ row, mapM (λ k, inr (A:=string) <$> m !! k) ks = Some (inr <$> row)
         ∧ Forall2 (λ k v, m !! k = Some v) ks row.
Proof.
  induction ks as [|k ks IH]; intros Hks.
  - exists []. split; [done|constructor].
  - destruct (Hks k) as [v Hv]; [left|].
    destruct IH as (row & Hrow & Hall).
    { intros k' ?. apply Hks. by right. }
    exists (v :: row). split; [|by constructor].
    cbn. rewrite Hv. cbn. rewrite Hrow. done.
Qed.

Lemma lookup_zip_lookups m ks row i :
  Forall2 (λ k v, m !! k = Some v) ks row →
  (list_to_map (zip ks row) : gmap string V) !! i =
    if decide (i ∈ ks) then m !! i else None.
Proof.
  induction 1 as [|k v ks row Hkv Hall IH]; cbn.
  - by rewrite lookup_empty.
  - destruct (decide (k = i)) as [->|Hne].
    + rewrite lookup_insert_eq, decide_True by left. done.
    + rewrite lookup_insert_ne by done. rewrite IH.
      destruct (decide (i ∈ ks)) as [Hin|Hnin].
      * rewrite decide_True by (by right). done.
      * rewrite decide_False; [done|]. intros Hin.
        apply elem_of_cons in Hin as [->|?]; done.
Qed.

Lemma listify_rows (d : pyobj V) :
  let flat := flatten_dict d "_" "" in
  ∃ row, listify_dict d false = Some (inr <$> row)
         ∧ Forall2 (λ k v, flat !! k = Some v) (sorted_keys flat) row.
Proof.
  intros flat. apply lookups_total. intros k. by rewrite sorted_keys_elem.
Qed.

Lemma listify_dict_is_Some (d : pyobj V) labels_only :
  is_Some (listify_dict d labels_only).
Proof.
  destruct labels_only; [by eexists|].
  destruct (listify_rows d) as (row & -> & _). by eexists.
Qed.

(** C8: for every nested dictionary the header and the row of
    [listify_dict] have the same length, zipping them gives back exactly
    the mapping [flatten_dict(d)], and the header is sorted by key and
    free of duplicates, so header and row are aligned and determined by
    the mapping. *)
Theorem listify_roundtrip (d : pyobj V) :
  ∃ (header : list string) (row : list V),
    listify_dict d true = Some (inl <$> header)
    ∧ listify_dict d false = Some (inr <$> row)
    ∧ length header = length row
    ∧ list_to_map (zip header row) = flatten_dict d "_" ""
    ∧ Sorted str_le header
    ∧ NoDup header.
Proof.
  set (flat := flatten_dict d "_" "").
  destruct (listify_rows d) as (row & Hrow & Hall). fold flat in Hall.
  exists (sorted_keys flat), row.
  split; [reflexivity|]. split; [exact Hrow|].
  split; [by eapply Forall2_length|].
  split; [|split; [apply (Sorted_merge_sort _) | apply sorted_keys_nodup]].
  apply map_eq. intros i. rewrite (lookup_zip_lookups flat) by done.
  destruct (decide (i ∈ sorted_keys flat)) as [|Hnin]; [done|].
  rewrite sorted_keys_elem in Hnin. symmetry. by apply eq_None_not_Some.
Qed.
End UtilFacts.

Section Facts.
Context {FL : PyFloat}.
Implicit Types (w : world) (b : bool).

(** ** Running the primitives *)

Lemma bind_return {A B} (m : M A) (f : A → M B) w a w' :
  m w = (Return a, w') → (m ≫= f) w = f a w'.
Proof. intros H. unfold mbind, M_bind. by rewrite H. Qed.

Lemma bind_raise {A B} (m : M A) (f : A → M B) w e w' :
  m w = (Raise e, w') → (m ≫= f) w = (Raise e, w').
Proof. intros H. unfold mbind, M_bind. by rewrite H. Qed.

Lemma bind_diverge {A B} (m : M A) (f : A → M B) w w' :
  m w = (Diverge, w') → (m ≫= f) w = (Diverge, w').
Proof. intros H. unfold mbind, M_bind. by rewrite H. Qed.

Lemma cmdbn_run c w :
  _cmdbn c w = (Return tt, sent w [Tx (ascii_ignore (c +:+ LF))]).
Proof. reflexivity. Qed.

Lemma sent_sent w es es' : sent (sent w es) es' = sent w (es ++ es').
Proof. unfold sent; cbn. by rewrite <- app_assoc. Qed.

Lemma sent_nil w : sent w [] = w.
Proof. destruct w. unfold sent; cbn. by rewrite app_nil_r. Qed.

Lemma commands_app (t t' : list event) :
  commands (t ++ t') = commands t ++ commands t'.
Proof.
  induction t as [|[] t IH]; cbn; [done|by rewrite IH|done..].
Qed.

(** ** Output switch *)

(** C10: [disable(off=b)] is [enable(on=not b)], and writes [OUT0] for
    [b = True] and [OUT1] for [b = False]; so [disable(False)] switches
    the output on. *)
Theorem disable_is_enable_negated b w :
  disable b w = enable (negb b) w
  ∧ disable b w = (Return tt, sent w [Tx ("OUT" +:+ (if b then "0" else "1") +:+ LF)])
  ∧ disable false w = (Return tt, sent w [Tx ("OUT1" +:+ LF)]).
Proof.
  split; [reflexivity|]. split; [by destruct b|reflexivity].
Qed.

(** ** Presets *)

(** C9: a slot outside 1..5 makes [m_store] and [m_recall] return without
    writing anything and without raising; a slot in 1..5 makes each write
    exactly one command, [SAV<n>] or [RCL<n>]. *)
Theorem preset_slot_range (n : Z) w :
  (n ≤ 0 ∨ 5 < n →
     m_store n w = (Return tt, w) ∧ m_recall n w = (Return tt, w))
  ∧ (1 ≤ n ≤ 5 →
     m_store n w = (Return tt, sent w [Tx ("SAV" +:+ pretty n +:+ LF)])
     ∧ m_recall n w = (Return tt, sent w [Tx ("RCL" +:+ pretty n +:+ LF)])).
Proof.
  split.
  - intros Hn. unfold m_store, m_recall.
    assert ((0 <? n) && (n <=? 5) = false) as ->; [|done].
    apply andb_false_iff. destruct Hn; [left; lia | right; lia].
  - intros Hn. unfold m_store, m_recall.
    assert ((0 <? n) && (n <=? 5) = true) as ->.
    { apply andb_true_iff. split; lia. }
    rewrite !cmdbn_run.
    assert (n = 1 ∨ n = 2 ∨ n = 3 ∨ n = 4 ∨ n = 5) as Hc by lia.
    destruct Hc as [->|[->|[->|[->| ->]]]]; done.
Qed.

(** ** Status decoding *)

Lemma bit_table_bytes : Forall bit_table (seqZ 0 256).
Proof. refine (bool_decide_unpack _ _). vm_compute. exact I. Qed.

(** C2: for each of the 256 values of the status byte, the decoded fields
    follow the bit table: bit 0 (bit 1) set gives CV on channel 0
    (channel 1) and CC otherwise; bits 3-2 give independent for 00,
    parallel for 11 and series for 01 and 10; bits 4, 5 and 6 are beep,
    lock and output. *)
Theorem status_bits_table (s_byte : Z) :
  0 ≤ s_byte < 256 →
  let s := status_bits s_byte in
  (ch0_mode s = CV ↔ Z.testbit s_byte 0 = true)
  ∧ (ch0_mode s = CC ↔ Z.testbit s_byte 0 = false)
  ∧ (ch1_mode s = CV ↔ Z.testbit s_byte 1 = true)
  ∧ (ch1_mode s = CC ↔ Z.testbit s_byte 1 = false)
  ∧ (tracking s = independent ↔ Z.testbit s_byte 3 = false ∧ Z.testbit s_byte 2 = false)
  ∧ (tracking s = parallel ↔ Z.testbit s_byte 3 = true ∧ Z.testbit s_byte 2 = true)
  ∧ (tracking s = series ↔ Z.testbit s_byte 3 ≠ Z.testbit s_byte 2)
  ∧ beep s = Z.testbit s_byte 4
  ∧ lock s = Z.testbit s_byte 5
  ∧ output s = Z.testbit s_byte 6.
Proof.
  intros Hb s.
  assert (bit_table s_byte) as (H0 & H1 & Ht & Hbp & Hl & Ho).
  { eapply Forall_forall; [apply bit_table_bytes|].
    apply elem_of_seqZ. lia. }
  fold s in H0, H1, Ht. rewrite H0, H1, Ht.
  repeat split; try assumption;
    destruct (Z.testbit s_byte 0), (Z.testbit s_byte 1), (Z.testbit s_byte 2), (Z.testbit s_byte 3);
    try done; try (intros [??]; done); try (intros ?; split; done).
Qed.

(** ** The snapshot operation *)

Variable self_hw : hw_dict.

Ltac run := unfold mbind, M_bind, mret, M_ret, raise; cbn.

Lemma cmds_run c w :
  _cmds c w =
    (Return (ascii_ignore (device w (reads w))),
     {| device := device w; reads := S (reads w); clock := clock w;
        ofh := ofh w; trace := trace w ++ [Tx (ascii_ignore (c +:+ LF))] |}).
Proof. reflexivity. Qed.

(** C3 (what the code does): when the status-byte query reads no data,
    [status()] raises the [IndexError] of [s[0]], not the
    [Exception('Could not get PSU status')] guarded by [s is None]. *)
Theorem status_empty_read w :
  device w (reads w) = "" →
  (status self_hw w).1 = Raise IndexError
  ∧ (status self_hw w).1 ≠ Raise (Exception "Could not get PSU status").
Proof.
  intros H. unfold status, _cmdb. run. rewrite H. cbn. split; congruence.
Qed.

Lemma status_measured w i :
  measured (device w) (reads w) = Some i →
  ∃ s, status self_hw w = (Return s, polled w) ∧ out_curr (s_output s) = i.
Proof.
  unfold measured. intros H.
  destruct (device w (reads w)) as [|c r] eqn:Hb; [done|].
  destruct (float_of_str (ascii_ignore (device w (S (reads w))))) as [sv|] eqn:H1; [|done].
  destruct (float_of_str (ascii_ignore (device w (S (S (reads w)))))) as [sc|] eqn:H2; [|done].
  destruct (float_of_str (ascii_ignore (device w (S (S (S (reads w))))))) as [v|] eqn:H3; [|done].
  cbn in H.
  unfold status, _cmdb. run. rewrite Hb. cbn.
  unfold py_float.
  rewrite cmds_run; cbn; rewrite H1; run.
  rewrite cmds_run; cbn; rewrite H2; run.
  rewrite cmds_run; cbn; rewrite H3; run.
  rewrite cmds_run; cbn; rewrite H; run.
  eexists. split; [unfold polled; cbn; by rewrite <- !app_assoc | reflexivity].
Qed.

(** ** Slew engine *)

Lemma setter_run what v w :
  what = "volts" ∨ what = "curr" →
  setter what v w = (Return tt, sent w [Tx (setpoint_cmd what v)]).
Proof. by intros [-> | ->]. Qed.

Lemma slew_loop_run what incr ts n v w :
  what = "volts" ∨ what = "curr" →
  negative (Float ts) = false →
  ∃ w', slew_loop (Some (setter what)) incr ts n v w = (Return tt, w')
        ∧ trace w' = trace w ++ ramp_events what ts (slew_values incr n v)
        ∧ device w' = device w ∧ reads w' = reads w ∧ ofh w' = ofh w.
Proof.
  intros Hwhat Hts. revert v w. induction n as [|n IH]; intros v w.
  - eexists. split; [reflexivity|]. cbn. by rewrite app_nil_r.
  - cbn [slew_loop slew_values].
    erewrite bind_return by (by apply setter_run).
    erewrite bind_return by (unfold time_sleep; rewrite Hts; reflexivity).
    destruct (IH (round3 (fadd v incr))
                {| device := device w; reads := reads w;
                   clock := fadd (clock w) ts; ofh := ofh w;
                   trace := (trace w ++ [Tx (setpoint_cmd what (round3 (fadd v incr)))])
                              ++ [Sleep (Float ts)] |})
      as (w' & Hrun & Htr & Hdev & Hrd & Hofh).
    exists w'. split; [exact Hrun|]. rewrite Htr. cbn.
    by rewrite <- !app_assoc.
Qed.

Lemma slew_values_length incr n v : length (slew_values incr n v) = n.
Proof. revert v. induction n as [|n IH]; intros v; cbn; [done|by rewrite IH]. Qed.

Lemma commands_ramp what ts vs :
  commands (ramp_events what ts vs) = setpoint_cmd what <$> vs.
Proof. induction vs as [|v vs IH]; cbn; [done|by rewrite IH]. Qed.

(** The run of [_slew] on a valid selector, a non-zero count and a step
    interval that [time.sleep] accepts, after a successful [status()]. *)
Lemma slew_run what end_ count duration w s w1 :
  what = "volts" ∨ what = "curr" →
  count ≠ 0 →
  status self_hw w = (Return s, w1) →
  negative (Float (step_interval duration count)) = false →
  ∃ start w',
    settings_get (s_settings s) what w1 = (Return start, w1)
    ∧ _slew self_hw what end_ count duration w = (Return tt, w')
    ∧ trace w' =
        trace w1
          ++ ramp_events what (step_interval duration count)
               (slew_values (fdiv (fsub end_ start) (of_int count))
                  (Z.to_nat count) start)
          ++ [Tx (setpoint_cmd what end_)].
Proof.
  intros Hwhat Hcount Hst Hts.
  assert (∃ start, settings_get (s_settings s) what = mret start) as [start Hget].
  { destruct Hwhat as [-> | ->]; eexists; reflexivity. }
  exists start.
  destruct (slew_loop_run what (fdiv (fsub end_ start) (of_int count))
              (step_interval duration count) (Z.to_nat count) start w1 Hwhat Hts)
    as (w2 & Hloop & Htr & _).
  exists (sent w2 [Tx (setpoint_cmd what end_)]).
  split; [by rewrite Hget|]. split.
  - unfold _slew. erewrite bind_return by exact Hst.
    rewrite Hget. erewrite bind_return by reflexivity.
    unfold truediv. apply Z.eqb_neq in Hcount. rewrite Hcount.
    erewrite bind_return by reflexivity.
    erewrite bind_return by reflexivity.
    assert ((if String.eqb what "volts" then mret (Some setVolts)
             else if String.eqb what "curr" then mret (Some setCurr)
             else raise (Exception ("No function found. What was " +:+ what)))
            = (mret (Some (setter what)) : M _)) as ->.
    { by destruct Hwhat as [-> | ->]. }
    erewrite bind_return by reflexivity.
    erewrite bind_return by exact Hloop.
    by apply setter_run.
  - cbn. rewrite Htr. by rewrite <- app_assoc.
Qed.

(** C4: a slew over ['volts'] or ['curr'] with [count >= 1] sends, after
    the queries of its snapshot, exactly [count] setpoint commands, one
    per loop iteration and each followed by one sleep, and then exactly
    one more setpoint command, the setter's command for [end] itself. *)
Theorem slew_command_count what end_ count duration w s w1 :
  what = "volts" ∨ what = "curr" →
  1 ≤ count →
  status self_hw w = (Return s, w1) →
  negative (Float (step_interval duration count)) = false →
  ∃ vs w',
    _slew self_hw what end_ count duration w = (Return tt, w')
    ∧ length vs = Z.to_nat count
    ∧ trace w' =
        trace w1 ++ ramp_events what (step_interval duration count) vs
          ++ [Tx (setpoint_cmd what end_)]
    ∧ commands (trace w') =
        commands (trace w1) ++ (setpoint_cmd what <$> vs)
          ++ [setpoint_cmd what end_].
Proof.
  intros Hwhat Hcount Hst Hts.
  destruct (slew_run what end_ count duration w s w1 Hwhat ltac:(lia) Hst Hts)
    as (start & w' & _ & Hrun & Htr).
  eexists _, w'. split; [exact Hrun|]. split; [apply slew_values_length|].
  split; [exact Htr|].
  rewrite Htr, !commands_app, commands_ramp. reflexivity.
Qed.

(** C5 (amended): the three-decimal rounding is fed back.  The values
    sent by the loop of a slew are [v_1, ..., v_count] with
    [v_1 = round3 (start + incr)] and [v_(k+1) = round3 (v_k + incr)],
    where [round3 v = int(v * 1000 + 0.5) / 1000] and
    [incr = (end - start) / count]: each step continues from the rounded
    value of the step before. *)
Theorem slew_rounding_fed_back what end_ count duration w s w1 :
  what = "volts" ∨ what = "curr" →
  1 ≤ count →
  status self_hw w = (Return s, w1) →
  negative (Float (step_interval duration count)) = false →
  ∃ start vs w',
    settings_get (s_settings s) what w1 = (Return start, w1)
    ∧ _slew self_hw what end_ count duration w = (Return tt, w')
    ∧ commands (trace w') =
        commands (trace w1) ++ (setpoint_cmd what <$> vs)
          ++ [setpoint_cmd what end_]
    ∧ length vs = Z.to_nat count
    ∧ let incr := fdiv (fsub end_ start) (of_int count) in
      vs = slew_values incr (Z.to_nat count) start
      ∧ vs !! 0%nat = Some (round3 (fadd start incr))
      ∧ ∀ k v v', vs !! k = Some v → vs !! S k = Some v' →
                  v' = round3 (fadd v incr).
Proof.
  intros Hwhat Hcount Hst Hts.
  destruct (slew_run what end_ count duration w s w1 Hwhat ltac:(lia) Hst Hts)
    as (start & w' & Hget & Hrun & Htr).
  eexists start, _, w'. split; [exact Hget|]. split; [exact Hrun|].
  split; [rewrite Htr, !commands_app, commands_ramp; reflexivity|].
  split; [apply slew_values_length|].
  cbv zeta. split; [reflexivity|].
  set (incr := fdiv (fsub end_ start) (of_int count)).
  split.
  - destruct (Z.to_nat count) as [|n] eqn:Hn; [lia|reflexivity].
  - generalize (Z.to_nat count) start. clear.
    intros n. induction n as [|n IH]; intros v0 k v v'; [done|].
    destruct k as [|k]; cbn [slew_values].
    + destruct n; cbn; [done|]. by intros [= <-] [= <-].
    + cbn. apply IH.
Qed.

(** ** Charge loop *)

Lemma timeline_app (t t' : list event) :
  timeline (t ++ t') = timeline t ++ timeline t'.
Proof.
  induction t as [|[] t IH]; cbn; [done|by rewrite IH|by rewrite IH|done..].
Qed.

Lemma timeline_queries : timeline (Tx <$> poll_queries) = Tx <$> poll_queries.
Proof. reflexivity. Qed.

Lemma writerow_run s labels_only w :
  ∃ cells, writerow s labels_only w = (Return tt, sent w [Row cells]).
Proof.
  unfold writerow.
  destruct (listify_dict_is_Some (snapshot_dict s) labels_only) as [cells ->].
  by exists cells.
Qed.

(** Logging a snapshot only appends rows to the trace. *)
Lemma log_snapshot_run s first w :
  ∃ first' rows,
    log_snapshot s first w = (Return first', sent w rows)
    ∧ timeline rows = [] ∧ commands rows = [].
Proof.
  unfold log_snapshot, get_ofh, mbind, M_bind, mret, M_ret.
  destruct (ofh w) as [path|].
  - destruct first.
    + destruct (writerow_run s true w) as [hdr Hh].
      destruct (writerow_run s false (sent w [Row hdr])) as [cells Hc].
      exists false, [Row hdr; Row cells].
      rewrite Hh, Hc, sent_sent. repeat split.
    + destruct (writerow_run s false w) as [cells Hc].
      exists false, [Row cells]. rewrite Hc. repeat split.
  - exists first, []. rewrite sent_nil. repeat split.
Qed.

Lemma charge_loop_finished fuel a eoc now end_ first w :
  charge_loop self_hw fuel a eoc now end_ true first w = (Return true, w).
Proof. by destruct fuel. Qed.

Lemma poll_current_next w w' k :
  device w' = device w → reads w' = (5 + reads w)%nat →
  poll_current w' k = poll_current w (S k).
Proof.
  intros Hd Hr. unfold poll_current. rewrite Hd, Hr. f_equal. lia.
Qed.

Lemma poll_current_0 w : poll_current w 0 = measured (device w) (reads w).
Proof. unfold poll_current. f_equal. lia. Qed.

(** While the polls are answered above the end-of-charge current the
    loop keeps running, whatever the clock shows. *)
Lemma charge_loop_above a now end_ :
  flt now end_ = true →
  negative (Int (check_interval a)) = false →
  ∀ fuel first w,
    (∀ k, (k < fuel)%nat → above_eoc a w k) →
    ∃ w', charge_loop self_hw fuel a (eoc_current a) now end_ false first w
            = (Diverge, w')
          ∧ reads w' = (reads w + 5 * fuel)%nat
          ∧ clock w' = slept fuel (of_int (check_interval a)) (clock w).
Proof.
  intros Hguard Hci. induction fuel as [|fuel IH]; intros first w Habove.
  - exists w. cbn. rewrite Hguard. split; [done|]. split; [lia|done].
  - destruct (Habove 0%nat ltac:(lia)) as (i & Hm & Hfle).
    rewrite poll_current_0 in Hm.
    destruct (status_measured w i Hm) as (s & Hst & Hcur).
    destruct (log_snapshot_run s first (polled w)) as (first' & rows & Hlog & _).
    cbn [charge_loop negb andb]. rewrite Hguard.
    erewrite bind_return by exact Hst.
    erewrite bind_return by exact Hlog.
    rewrite Hcur, Hfle.
    erewrite bind_return by (unfold time_sleep; rewrite Hci; reflexivity).
    match goal with |- ∃ _, charge_loop _ _ _ _ _ _ _ _ ?w1 = _ ∧ _ =>
      destruct (IH first' w1) as (w' & Hrun & Hrd & Hck) end.
    { intros k Hk. destruct (Habove (S k) ltac:(lia)) as (j & Hj & Hle).
      exists j. split; [|done]. by erewrite poll_current_next. }
    exists w'. split; [exact Hrun|]. split; [rewrite Hrd; cbn; lia|exact Hck].
Qed.

(** The loop leaves through [finished = True] at the first poll that is
    answered at or below the end-of-charge current. *)
Lemma charge_loop_hit a now end_ :
  flt now end_ = true →
  negative (Int (check_interval a)) = false →
  ∀ n fuel first w,
    (∀ k, (k < n)%nat → above_eoc a w k) →
    at_eoc a w n →
    (n < fuel)%nat →
    ∃ w', charge_loop self_hw fuel a (eoc_current a) now end_ false first w
            = (Return true, w')
          ∧ reads w' = (reads w + 5 * S n)%nat
          ∧ ofh w' = ofh w
          ∧ timeline (trace w') =
              timeline (trace w) ++ charging_timeline n (check_interval a)
                ++ (Tx <$> poll_queries).
Proof.
  intros Hguard Hci. induction n as [|n IH]; intros fuel first w Habove Hat Hfuel.
  - destruct fuel as [|fuel]; [lia|].
    destruct Hat as (i & Hm & Hfle). rewrite poll_current_0 in Hm.
    destruct (status_measured w i Hm) as (s & Hst & Hcur).
    destruct (log_snapshot_run s first (polled w)) as (first' & rows & Hlog & Htl & _).
    cbn [charge_loop negb andb]. rewrite Hguard.
    erewrite bind_return by exact Hst.
    erewrite bind_return by exact Hlog.
    rewrite Hcur, Hfle, charge_loop_finished.
    eexists. split; [reflexivity|]. cbn. split; [lia|]. split; [done|].
    by rewrite !timeline_app, Htl, app_nil_r.
  - destruct fuel as [|fuel]; [lia|].
    destruct (Habove 0%nat ltac:(lia)) as (i & Hm & Hfle).
    rewrite poll_current_0 in Hm.
    destruct (status_measured w i Hm) as (s & Hst & Hcur).
    destruct (log_snapshot_run s first (polled w)) as (first' & rows & Hlog & Htl & _).
    cbn [charge_loop negb andb]. rewrite Hguard.
    erewrite bind_return by exact Hst.
    erewrite bind_return by exact Hlog.
    rewrite Hcur, Hfle.
    erewrite bind_return by (unfold time_sleep; rewrite Hci; reflexivity).
    match goal with |- ∃ _, charge_loop _ _ _ _ _ _ _ _ ?w1 = _ ∧ _ =>
      destruct (IH fuel first' w1) as (w' & Hrun & Hrd & Hofh & Htr) end.
    { intros k Hk. destruct (Habove (S k) ltac:(lia)) as (j & Hj & Hle).
      exists j. split; [|done]. by erewrite poll_current_next. }
    { destruct Hat as (j & Hj & Hle).
      exists j. split; [|done]. by erewrite poll_current_next. }
    { lia. }
    exists w'. split; [exact Hrun|]. split; [rewrite Hrd; cbn; lia|].
    split; [exact Hofh|]. rewrite Htr. cbn [trace polled sent].
    rewrite !timeline_app, Htl, app_nil_r. cbn [charging_timeline].
    rewrite timeline_queries. cbn [timeline]. by rewrite <- !app_assoc.
Qed.

(** ** The charge session *)

Lemma charge_unfold fuel a w :
  charge self_hw fuel a w =
    (charge_loop self_hw fuel a (eoc_current a) (start_time w) (end_time a w)
       false true
       ≫= λ finished, disable true;; close_ofh;; mret finished) (armed a w).
Proof.
  unfold charge, armed.
  erewrite bind_return by apply cmdbn_run.
  destruct (log a) as [path|].
  - erewrite bind_return by (erewrite bind_return by reflexivity; reflexivity).
    cbn [sent device reads clock ofh trace].
    do 6 (erewrite bind_return by reflexivity;
               cbn [sent device reads clock ofh trace]).
    f_equal. f_equal. by rewrite <- !app_assoc.
  - do 7 (erewrite bind_return by reflexivity;
               cbn [sent device reads clock ofh trace]).
    f_equal. f_equal. by rewrite <- !app_assoc.
Qed.

Lemma closing_run finished w :
  ((disable true;; close_ofh;; mret finished) : M bool) w
  = (Return finished, sent w (closing w)).
Proof.
  erewrite bind_return by apply cmdbn_run.
  unfold close_ofh, get_ofh, closing, mbind, M_bind, mret, M_ret. cbn.
  destruct (ofh w); cbn; unfold sent; cbn; by rewrite <- ?app_assoc.
Qed.

Lemma commands_closing w :
  commands (closing w) = ["OUT0" +:+ LF].
Proof. unfold closing. by destruct (ofh w). Qed.

Lemma timeline_closing w :
  timeline (closing w) = [Tx ("OUT0" +:+ LF)].
Proof. unfold closing. by destruct (ofh w). Qed.

(** A session that returns has sent the output-disable command last. *)
Lemma charge_return_disabled fuel a w finished w' :
  charge self_hw fuel a w = (Return finished, w') → ends_disabled w'.
Proof.
  rewrite charge_unfold. unfold mbind at 1, M_bind at 1.
  destruct (charge_loop _ _ _ _ _ _ _ _ _) as [[f| |] w1]; [|done..].
  rewrite closing_run. intros [= _ <-]. unfold ends_disabled. cbn.
  by rewrite commands_app, commands_closing, last_snoc.
Qed.

(** The SIGINT handler sends the output-disable command and exits. *)
Lemma graceful_exit_run w :
  graceful_exit w = (Raise (SystemExit 1), sent w (closing w)).
Proof.
  unfold graceful_exit.
  erewrite bind_return by apply cmdbn_run.
  unfold close_ofh, get_ofh, closing, mbind, M_bind, mret, M_ret, raise. cbn.
  destruct (ofh w); cbn; unfold sent; cbn; by rewrite <- ?app_assoc.
Qed.

Lemma timeline_armed a w :
  timeline (trace (armed a w)) = timeline (trace w) ++ arming_timeline a.
Proof.
  unfold armed. cbn [trace]. rewrite !timeline_app.
  by destruct (log a).
Qed.

Lemma negative_Int (z : Z) : 0 ≤ z → negative (Int z) = false.
Proof. intros H. cbn. by apply Z.ltb_ge. Qed.

(** C6: when the polls before poll [n] (counted from 0) are answered
    above the end-of-charge current and poll [n] is answered at or below
    it, the session leaves its loop through [finished = True] at that
    poll: it has polled exactly [n + 1] times, slept the check interval
    after each of the first [n] polls and not after the last, and then
    switched the output off; with a budget of [n] polls or fewer it is
    still in its loop. *)
Theorem charge_threshold_at_poll a w n :
  0 ≤ check_interval a →
  flt (start_time w) (end_time a w) = true →
  (∀ k, (k < n)%nat → above_eoc a w k) →
  at_eoc a w n →
  (∀ fuel, (n < fuel)%nat →
     ∃ w', charge self_hw fuel a w = (Return true, w')
           ∧ reads w' = (reads w + 5 * S n)%nat
           ∧ timeline (trace w') =
               timeline (trace w) ++ arming_timeline a
                 ++ charging_timeline n (check_interval a)
                 ++ (Tx <$> poll_queries)
                 ++ [Tx ("OUT0" +:+ LF)])
  ∧ (∀ fuel, (fuel ≤ n)%nat → (charge self_hw fuel a w).1 = Diverge).
Proof.
  intros Hci Hguard Habove Hat. apply negative_Int in Hci. split.
  - intros fuel Hfuel.
    destruct (charge_loop_hit a _ _ Hguard Hci n fuel true (armed a w)
                Habove Hat Hfuel) as (w1 & Hrun & Hrd & _ & Htl).
    rewrite charge_unfold. erewrite bind_return by exact Hrun.
    rewrite closing_run. eexists. split; [reflexivity|].
    split; [exact Hrd|]. cbn [trace sent].
    rewrite timeline_app, Htl, timeline_closing, timeline_armed.
    by rewrite <- !app_assoc.
  - intros fuel Hfuel.
    destruct (charge_loop_above a _ _ Hguard Hci fuel true (armed a w))
      as (w1 & Hrun & _).
    { intros k Hk. apply Habove. lia. }
    rewrite charge_unfold. by erewrite bind_diverge by exact Hrun.
Qed.

(** C1 (what the code does): with every poll answered above the
    end-of-charge current the session never leaves its loop, whatever
    the iteration budget: [now] is read once, before the loop, and the
    guard [now < end_time] compares that same value at every iteration,
    while the clock runs on past the deadline. *)
Lemma charge_never_expires a w :
  0 ≤ check_interval a →
  flt (start_time w) (end_time a w) = true →
  (∀ k, above_eoc a w k) →
  ∀ fuel, ∃ w',
    charge self_hw fuel a w = (Diverge, w')
    ∧ clock w' = slept fuel (of_int (check_interval a)) (clock (armed a w)).
Proof.
  intros Hci Hguard Habove fuel. apply negative_Int in Hci.
  destruct (charge_loop_above a _ _ Hguard Hci fuel true (armed a w))
    as (w1 & Hrun & _ & Hck); [intros k _; apply Habove|].
  exists w1. rewrite charge_unfold.
  by erewrite bind_diverge by exact Hrun.
Qed.

(** A poll that reads no data ends the loop with the [IndexError] of
    [status()], the status query being the last command written. *)
Lemma charge_loop_silent a now end_ :
  flt now end_ = true →
  negative (Int (check_interval a)) = false →
  ∀ n fuel first w,
    (∀ k, (k < n)%nat → above_eoc a w k) →
    device w (reads w + 5 * n)%nat = "" →
    (n < fuel)%nat →
    ∃ w', charge_loop self_hw fuel a (eoc_current a) now end_ false first w
            = (Raise IndexError, w')
          ∧ last (commands (trace w')) = Some ("STATUS?" +:+ LF).
Proof.
  intros Hguard Hci. induction n as [|n IH]; intros fuel first w Habove Hsil Hfuel.
  - destruct fuel as [|fuel]; [lia|].
    replace (reads w + 5 * 0)%nat with (reads w) in Hsil by lia.
    cbn [charge_loop negb andb]. rewrite Hguard.
    eexists. split.
    + apply bind_raise. unfold status, _cmdb, mbind, M_bind, mret, M_ret.
      cbn. rewrite Hsil. reflexivity.
    + cbn [trace]. rewrite commands_app. cbn [commands]. by rewrite last_snoc.
  - destruct fuel as [|fuel]; [lia|].
    destruct (Habove 0%nat ltac:(lia)) as (i & Hm & Hfle).
    rewrite poll_current_0 in Hm.
    destruct (status_measured w i Hm) as (s & Hst & Hcur).
    destruct (log_snapshot_run s first (polled w)) as (first' & rows & Hlog & _).
    cbn [charge_loop negb andb]. rewrite Hguard.
    erewrite bind_return by exact Hst.
    erewrite bind_return by exact Hlog.
    rewrite Hcur, Hfle.
    erewrite bind_return by (unfold time_sleep; rewrite Hci; reflexivity).
    match goal with |- ∃ _, charge_loop _ _ _ _ _ _ _ _ ?w1 = _ ∧ _ =>
      apply (IH fuel first' w1) end.
    + intros k Hk. destruct (Habove (S k) ltac:(lia)) as (j & Hj & Hle).
      exists j. split; [|done]. by erewrite poll_current_next.
    + cbn [device reads polled sent]. rewrite <- Hsil. f_equal. lia.
    + lia.
Qed.

(** C7 (what the code does): when a poll of a running session reads no
    data, [charge] ends with the exception of [status()]; the last
    command it has written is that poll's status query, and no
    output-disable command follows the [OUT1] of the start. *)
Theorem charge_failure_leaves_output_on a w n fuel :
  0 ≤ check_interval a →
  flt (start_time w) (end_time a w) = true →
  (∀ k, (k < n)%nat → above_eoc a w k) →
  device w (reads w + 5 * n)%nat = "" →
  (n < fuel)%nat →
  ∃ w', charge self_hw fuel a w = (Raise IndexError, w')
        ∧ last (commands (trace w')) = Some ("STATUS?" +:+ LF)
        ∧ ¬ ends_disabled w'.
Proof.
  intros Hci Hguard Habove Hsil Hfuel. apply negative_Int in Hci.
  destruct (charge_loop_silent a _ _ Hguard Hci n fuel true (armed a w)
              Habove Hsil Hfuel) as (w1 & Hrun & Hlast).
  exists w1. rewrite charge_unfold.
  erewrite bind_raise by exact Hrun. split; [done|]. split; [done|].
  unfold ends_disabled. rewrite Hlast. intros [= H].
Qed.

End Facts.

(** * The code on concrete inputs (rational model) *)

Module Runs.
Import QModel.

(** A supply in CV mode with its output on, set to 3.00 V. *)
Definition bench : world :=
  world0 (script ["A"; "3.00"; "1.100"; "03.00"; "1.099"]) 0.

(** A supply set to 0.00 V. *)
Definition bench0 : world :=
  world0 (script ["A"; "0.00"; "1.100"; "00.00"; "0.000"]) 0.

(** [--capacity 2.2 --rate 0.5 --volts 4.2 --cutoff 0.02 --max-time 4
    --check-interval 60], no log file. *)
Definition args0 : args :=
  {| capacity := Qmake 22 10; rate := Qmake 1 2; volts := Qmake 42 10;
     cutoff := Qmake 2 100; max_time := 4; check_interval := 60;
     log := None |}.

(** A battery that keeps drawing 1.000 A: every poll is answered with
    the same five lines. *)
Fixpoint steady (n : nat) : string :=
  match n with
  | 0%nat => "A"
  | 1%nat => "4.17"
  | 2%nat => "1.10"
  | 3%nat => "4.10"
  | 4%nat => "1.000"
  | S (S (S (S (S n')))) => steady n'
  end.

(** Two polls at 1.000 A and 0.500 A, a third at 0.040 A. *)
Definition tapering : world :=
  world0 (script ["A"; "4.17"; "1.10"; "4.10"; "1.000";
                  "A"; "4.17"; "1.10"; "4.17"; "0.500";
                  "A"; "4.17"; "1.10"; "4.17"; "0.040"]) 0.

(** Two polls answered, then the supply stops answering. *)
Definition unplugged : world :=
  world0 (script ["A"; "4.17"; "1.10"; "4.10"; "1.000";
                  "A"; "4.17"; "1.10"; "4.17"; "0.900"]) 0.

Lemma steady_period k j : steady (j + 5 * k) = steady j.
Proof.
  induction k as [|k IH]; [by rewrite Nat.add_0_r|].
  replace (j + 5 * S k)%nat with (5 + (j + 5 * k))%nat by lia. exact IH.
Qed.

Lemma steady_above k : above_eoc args0 (world0 steady 0) k.
Proof.
  exists (Qmake 1 1). split; [|reflexivity].
  unfold poll_current, measured. cbn [device reads world0].
  set (r := (0 + 5 * k)%nat).
  rewrite (steady_period k 0 : steady r = _).
  rewrite (steady_period k 1 : steady (S r) = _).
  rewrite (steady_period k 2 : steady (S (S r)) = _).
  rewrite (steady_period k 3 : steady (S (S (S r))) = _).
  rewrite (steady_period k 4 : steady (S (S (S (S r)))) = _).
  reflexivity.
Qed.

(** Flattening joins nested names with [_]; a later key replaces an
    earlier one that flattens to the same name. *)
Example listify_nested :
  let d : pyobj nat :=
    Dict [("b", Leaf 1%nat);
          ("a", Dict [("x", Leaf 2%nat); ("y", Dict [("z", Leaf 3%nat)])]);
          ("a_x", Leaf 7%nat)] in
  listify_dict d true = Some [inl "a_x"; inl "a_y_z"; inl "b"]
  ∧ listify_dict d false = Some [inr 7%nat; inr 3%nat; inr 1%nat].
Proof. split; vm_compute; reflexivity. Qed.

(** [disable(False)] writes [OUT1]. *)
Example disable_false_enables :
  commands (trace (disable false bench).2) = ["OUT1" +:+ LF].
Proof. reflexivity. Qed.

Lemma preset_slot_range_witness :
  (m_store 7 bench = (Return tt, bench)
   ∧ m_recall 7 bench = (Return tt, bench))
  ∧ (m_store 3 bench = (Return tt, sent bench [Tx ("SAV3" +:+ LF)])
     ∧ m_recall 3 bench = (Return tt, sent bench [Tx ("RCL3" +:+ LF)])).
Proof.
  split.
  - apply (proj1 (preset_slot_range 7 bench)). right. lia.
  - apply (proj2 (preset_slot_range 3 bench)). lia.
Defined.

Lemma status_bits_table_witness :
  (tracking (status_bits 65) = independent
   ↔ Z.testbit 65 3 = false ∧ Z.testbit 65 2 = false)
  ∧ output (status_bits 65) = Z.testbit 65 6.
Proof.
  destruct (status_bits_table 65) as (_ & _ & _ & _ & Ht & _ & _ & _ & _ & Ho);
    [lia|].
  split; [exact Ht | exact Ho].
Defined.

Lemma status_empty_read_witness :
  (status hw0 (world0 (script []) 0)).1 = Raise IndexError
  ∧ (status hw0 (world0 (script []) 0)).1
      ≠ Raise (Exception "Could not get PSU status").
Proof. apply status_empty_read. reflexivity. Defined.

Lemma setpoint_5V : setpoint_cmd "volts" (Qmake 5 1) = "VSET1:5.00" +:+ LF.
Proof. vm_compute. reflexivity. Qed.

(** A ramp from 3.00 V to 5.00 V in five steps: five setpoint commands
    and the final one. *)
Lemma slew_command_count_witness :
  ∃ vs w',
    _slew hw0 "volts" (Qmake 5 1) 5 (Int 5) bench = (Return tt, w')
    ∧ length vs = 5%nat
    ∧ commands (trace w') =
        poll_queries ++ (setpoint_cmd "volts" <$> vs)
          ++ ["VSET1:5.00" +:+ LF].
Proof.
  destruct (status_measured (FL:=Qfloat) hw0 bench (Qmake 1099 1000) eq_refl)
    as (s & Hst & _).
  destruct (slew_command_count (FL:=Qfloat) hw0 "volts" (Qmake 5 1) 5 (Int 5)
              bench s (polled bench))
    as (vs & w' & Hrun & Hlen & _ & Hcmd).
  - by left.
  - lia.
  - exact Hst.
  - reflexivity.
  - exists vs, w'. split; [exact Hrun|]. split; [exact Hlen|].
    rewrite Hcmd, setpoint_5V. reflexivity.
Defined.

(** The same ramp: each value sent is the rounding of its predecessor
    plus the increment. *)
Lemma slew_rounding_fed_back_witness :
  ∃ start vs w',
    _slew hw0 "volts" (Qmake 5 1) 5 (Int 5) bench = (Return tt, w')
    ∧ vs = slew_values (fdiv (fsub (Qmake 5 1) start) (of_int 5)) 5 start
    ∧ commands (trace w') =
        poll_queries ++ (setpoint_cmd "volts" <$> vs)
          ++ ["VSET1:5.00" +:+ LF].
Proof.
  destruct (status_measured (FL:=Qfloat) hw0 bench (Qmake 1099 1000) eq_refl)
    as (s & Hst & _).
  destruct (slew_rounding_fed_back (FL:=Qfloat) hw0 "volts" (Qmake 5 1) 5 (Int 5)
              bench s (polled bench))
    as (start & vs & w' & _ & Hrun & Hcmd & _ & Hvs & _).
  - by left.
  - lia.
  - exact Hst.
  - reflexivity.
  - exists start, vs, w'. split; [exact Hrun|]. split; [exact Hvs|].
    rewrite Hcmd, setpoint_5V. reflexivity.
Defined.

(** The commands of that ramp: 3.4, 3.8, 4.2, 4.6 and 5 volts, then the
    target once more. *)
Example slew_3V_to_5V :
  commands (trace (_slew hw0 "volts" (Qmake 5 1) 5 (Int 5) bench).2) =
    poll_queries
      ++ ["VSET1:3.40" +:+ LF; "VSET1:3.80" +:+ LF; "VSET1:4.20" +:+ LF;
          "VSET1:4.60" +:+ LF; "VSET1:5.00" +:+ LF]
      ++ ["VSET1:5.00" +:+ LF].
Proof. vm_compute. reflexivity. Qed.

(** C5 (as stated) fails: from 0.00 V to 0.008 V in 20 steps the
    increment is 0.0004, every step rounds back to 0 and the code sends
    [VSET1:0.00] twenty times, whereas an accumulator that is not
    rounded reaches 0.0056 at step 14 and would send [VSET1:0.01] from
    there on. *)
Lemma slew_unfed_counterexample :
  (_slew hw0 "volts" (Qmake 8 1000) 20 (Int 5) bench0).1 = Return tt
  ∧ commands (trace (_slew hw0 "volts" (Qmake 8 1000) 20 (Int 5) bench0).2)
    ≠ poll_queries
        ++ (setpoint_cmd "volts"
              <$> unfed_values (fdiv (fsub (Qmake 8 1000) (Qmake 0 1)) (of_int 20))
                    20 (Qmake 0 1))
        ++ [setpoint_cmd "volts" (Qmake 8 1000)].
Proof. split; [reflexivity|]. vm_compute. discriminate. Qed.

(** A session that reaches 0.040 A, below the 0.044 A end-of-charge
    current, at its third poll. *)
Lemma charge_threshold_at_poll_witness :
  (∃ w', charge hw0 3 args0 tapering = (Return true, w')
         ∧ reads w' = 15%nat
         ∧ timeline (trace w') =
             arming_timeline args0 ++ charging_timeline 2 60
               ++ (Tx <$> poll_queries) ++ [Tx ("OUT0" +:+ LF)])
  ∧ (charge hw0 2 args0 tapering).1 = Diverge.
Proof.
  destruct (charge_threshold_at_poll (FL:=Qfloat) hw0 args0 tapering 2) as [Hhit Hnot].
  - cbn. lia.
  - reflexivity.
  - intros k Hk.
    assert (k = 0 ∨ k = 1)%nat as [-> | ->] by lia.
    + exists (Qmake 1 1). by split.
    + exists (Qmake 1 2). by split.
  - exists (Qmake 1 25). by split.
  - split; [|apply Hnot; lia].
    destruct (Hhit 3%nat) as (w' & Hrun & Hrd & Htl); [lia|].
    exists w'. split; [exact Hrun|]. split; [exact Hrd | exact Htl].
Defined.

(** C1 (what the code does): with 1.000 A at every poll and a limit of
    four hours, the session is still in its loop after 241 polls, when
    its clock shows 14466 s and the deadline, 14405 s, has passed. *)
Lemma charge_never_expires_witness :
  ∃ w', charge hw0 241 args0 (world0 steady 0) = (Diverge, w')
        ∧ fle (end_time args0 (world0 steady 0)) (clock w') = true.
Proof.
  destruct (charge_never_expires (FL:=Qfloat) hw0 args0 (world0 steady 0)) with (fuel := 241%nat)
    as (w' & Hrun & Hck).
  - cbn. lia.
  - reflexivity.
  - apply steady_above.
  - exists w'. split; [exact Hrun|]. rewrite Hck. vm_compute. reflexivity.
Defined.

(** C7 (what the code does): the supply stops answering after two
    polls; the session ends with [IndexError] and its last command is
    the status query of the third poll. *)
Lemma charge_failure_leaves_output_on_witness :
  ∃ w', charge hw0 3 args0 unplugged = (Raise IndexError, w')
        ∧ last (commands (trace w')) = Some ("STATUS?" +:+ LF)
        ∧ ¬ ends_disabled w'.
Proof.
  apply (charge_failure_leaves_output_on (FL:=Qfloat) hw0 args0 unplugged 2 3).
  - cbn. lia.
  - reflexivity.
  - intros k Hk.
    assert (k = 0 ∨ k = 1)%nat as [-> | ->] by lia.
    + exists (Qmake 1 1). by split.
    + exists (Qmake 9 10). by split.
  - reflexivity.
  - lia.
Defined.

(** The commands of that session: the output is switched on and never
    switched off again. *)
Example unplugged_commands :
  commands (trace (charge hw0 3 args0 unplugged).2) =
    ["OUT0" +:+ LF; "VSET1:4.20" +:+ LF; "ISET1:1.10" +:+ LF; "OUT1" +:+ LF]
      ++ poll_queries ++ poll_queries ++ ["STATUS?" +:+ LF].
Proof. reflexivity. Qed.
End Runs.

(** * Further properties of the library and of the applications *)

Section MoreFacts.
Context {FL : PyFloat}.
Variable self_hw : hw_dict.
Implicit Types (w : world).

(** ** Transport *)

Lemma ascii_ignore_app s t :
  ascii_ignore (s +:+ t) = ascii_ignore s +:+ ascii_ignore t.
Proof.
  induction s as [|c s IH]; [done|].
  change (String c s +:+ t) with (String c (s +:+ t)).
  cbn [ascii_ignore]. rewrite IH.
  by destruct (nat_of_ascii c <? 128)%nat.
Qed.

Lemma ascii_ignore_seven_bit s :
  Forall seven_bit (list_ascii_of_string (ascii_ignore s)).
Proof.
  induction s as [|c s IH]; [constructor|].
  cbn [ascii_ignore].
  destruct (nat_of_ascii c <? 128)%nat eqn:Hc; [|exact IH].
  cbn [list_ascii_of_string]. constructor; [|exact IH]. by apply Nat.ltb_lt.
Qed.

Lemma ascii_ignore_id s :
  Forall seven_bit (list_ascii_of_string s) → ascii_ignore s = s.
Proof.
  induction s as [|c s IH]; [done|].
  cbn [list_ascii_of_string ascii_ignore].
  intros [Hc Hs]%Forall_cons. apply Nat.ltb_lt in Hc. rewrite Hc.
  by rewrite IH.
Qed.

(** X1: a command is written as one line that ends in a line feed and
    holds 7-bit characters only; a command that is 7-bit already is
    written unchanged. *)
Theorem cmdbn_seven_bit c w :
  _cmdbn c w = (Return tt, sent w [Tx (ascii_ignore c +:+ LF)])
  ∧ Forall seven_bit (list_ascii_of_string (ascii_ignore c +:+ LF))
  ∧ (Forall seven_bit (list_ascii_of_string c) → ascii_ignore c = c).
Proof.
  split; [|split].
  - rewrite cmdbn_run, ascii_ignore_app. reflexivity.
  - change (ascii_ignore c +:+ LF) with (ascii_ignore c +:+ ascii_ignore LF).
    rewrite <- ascii_ignore_app. apply ascii_ignore_seven_bit.
  - apply ascii_ignore_id.
Qed.

(** ** The snapshot operation, in full *)

Ltac same_world :=
  unfold raise, mret, M_ret, polled;
  f_equal; f_equal; cbn; rewrite <- ?app_assoc; reflexivity.

Lemma reply_eq w k : reply w k = ascii_ignore (device w (k + reads w)).
Proof. reflexivity. Qed.

(** The four numeric queries of a snapshot, from the world in which the
    status byte has been read. *)
Lemma status_unfold w :
  status self_hw w =
    match device w (reads w) with
    | EmptyString =>
        (Raise IndexError,
         {| device := device w; reads := S (reads w); clock := clock w;
            ofh := ofh w; trace := trace w ++ [Tx ("STATUS?" +:+ LF)] |})
    | String c _ =>
        match float_of_str (reply w 1) with
        | None =>
            (Raise ValueError,
             {| device := device w; reads := 2 + reads w; clock := clock w;
                ofh := ofh w;
                trace := trace w ++ (Tx <$> take 2 poll_queries) |})
        | Some sv =>
            match float_of_str (reply w 2) with
            | None =>
                (Raise ValueError,
                 {| device := device w; reads := 3 + reads w; clock := clock w;
                    ofh := ofh w;
                    trace := trace w ++ (Tx <$> take 3 poll_queries) |})
            | Some sc =>
                match float_of_str (reply w 3) with
                | None =>
                    (Raise ValueError,
                     {| device := device w; reads := 4 + reads w;
                        clock := clock w; ofh := ofh w;
                        trace := trace w ++ (Tx <$> take 4 poll_queries) |})
                | Some v =>
                    match float_of_str (reply w 4) with
                    | None => (Raise ValueError, polled w)
                    | Some i =>
                        (Return
                           {| s_status := status_bits (Z.of_nat (nat_of_ascii c));
                              s_settings := {| set_volts := sv; set_curr := sc |};
                              s_output := {| out_volts := v; out_curr := i;
                                             out_power := fmul v i |};
                              s_hw := self_hw;
                              s_time := {| iso := isoformat (clock w);
                                           epoch := clock w |} |},
                         polled w)
                    end
                end
            end
        end
    end.
Proof.
  unfold status, _cmdb, reply, mbind, M_bind, mret, M_ret, raise. cbn.
  destruct (device w (reads w)) as [|c r]; [reflexivity|]. cbn.
  unfold py_float. rewrite cmds_run. cbn.
  destruct (float_of_str _) as [sv|]; cbn; [|same_world].
  rewrite cmds_run. cbn.
  destruct (float_of_str _) as [sc|]; cbn; [|same_world].
  rewrite cmds_run. cbn.
  destruct (float_of_str _) as [v|]; cbn; [|same_world].
  rewrite cmds_run. cbn.
  destruct (float_of_str _) as [i|]; cbn; same_world.
Qed.

(** X2: a snapshot that is returned was decoded from five replies: the
    first byte of the first gives the flags, the next four parse to the set
    voltage, the set current, the measured voltage and the measured
    current, in that order; the power is their product, the time stamp is
    the clock, and the world has five more queries written and five more
    lines read, nothing else changed. *)
Theorem status_returns w s w' :
  status self_hw w = (Return s, w') →
  w' = polled w
  ∧ (∃ c r, device w (reads w) = String c r
            ∧ s_status s = status_bits (Z.of_nat (nat_of_ascii c)))
  ∧ float_of_str (reply w 1) = Some (set_volts (s_settings s))
  ∧ float_of_str (reply w 2) = Some (set_curr (s_settings s))
  ∧ float_of_str (reply w 3) = Some (out_volts (s_output s))
  ∧ float_of_str (reply w 4) = Some (out_curr (s_output s))
  ∧ out_power (s_output s) = fmul (out_volts (s_output s)) (out_curr (s_output s))
  ∧ s_hw s = self_hw
  ∧ epoch (s_time s) = clock w.
Proof.
  rewrite status_unfold.
  destruct (device w (reads w)) as [|c r]; [done|].
  destruct (float_of_str (reply w 1)) as [sv|]; [|done].
  destruct (float_of_str (reply w 2)) as [sc|]; [|done].
  destruct (float_of_str (reply w 3)) as [v|]; [|done].
  destruct (float_of_str (reply w 4)) as [i|]; [|done].
  intros [= <- <-]. cbn. repeat split; eauto.
Qed.

(** X3: the snapshot operation ends in exactly one of three ways.  It
    returns when the status reply is not empty and the four numeric
    replies parse; it raises [IndexError] when the status reply is empty;
    it raises [ValueError] when the status reply is there and a numeric
    reply does not parse.  It raises nothing else; in particular never the
    [Exception] of its [s is None] guard. *)
Theorem status_outcomes w :
  match (status self_hw w).1 with
  | Return _ => is_Some (measured (device w) (reads w))
  | Raise IndexError => device w (reads w) = EmptyString
  | Raise ValueError =>
      device w (reads w) ≠ EmptyString
      ∧ measured (device w) (reads w) = None
  | _ => False
  end.
Proof.
  rewrite status_unfold. unfold measured, reply. cbn [Nat.add].
  destruct (device w (reads w)) as [|c r]; [done|].
  destruct (float_of_str _) as [sv|]; cbn; [|done].
  destruct (float_of_str _) as [sc|]; cbn; [|done].
  destruct (float_of_str _) as [v|]; cbn; [|done].
  destruct (float_of_str _) as [i|]; cbn; [by eexists|done].
Qed.

(** ** Slew engine: the edges *)

Lemma settings_get_valid what st w :
  what = "volts" ∨ what = "curr" →
  ∃ start, settings_get st what = mret start
           ∧ start = (if String.eqb what "volts" then set_volts st else set_curr st).
Proof. intros [-> | ->]; eexists; split; reflexivity. Qed.

Lemma slew_fn_valid what :
  what = "volts" ∨ what = "curr" →
  (if String.eqb what "volts" then mret (Some setVolts)
   else if String.eqb what "curr" then mret (Some setCurr)
   else raise (Exception ("No function found. What was " +:+ what)))
  = (mret (Some (setter what)) : M _).
Proof. by intros [-> | ->]. Qed.

(** X4: a selector other than ['volts'] and ['curr'] makes the slew raise
    [KeyError] on the look-up of the start value, right after its
    snapshot: no setpoint command is written, and the selector check
    further down, with its own exception, is not reached. *)
Theorem slew_invalid_selector what end_ count duration w s w1 :
  what ≠ "volts" → what ≠ "curr" →
  status self_hw w = (Return s, w1) →
  _slew self_hw what end_ count duration w = (Raise (KeyError what), w1).
Proof.
  intros Hv Hc Hst. unfold _slew.
  erewrite bind_return by exact Hst.
  apply bind_raise. unfold settings_get.
  apply String.eqb_neq in Hv, Hc. by rewrite Hv, Hc.
Qed.

(** X5: with a valid selector and a readable snapshot, a step count of 0
    makes the slew raise [ZeroDivisionError] before any setpoint command,
    and a negative step count makes it skip the ramp and write the target
    value once, without sleeping. *)
Theorem slew_nonpositive_count what end_ count duration w s w1 :
  what = "volts" ∨ what = "curr" →
  status self_hw w = (Return s, w1) →
  (count = 0 →
     _slew self_hw what end_ count duration w = (Raise ZeroDivisionError, w1))
  ∧ (count < 0 →
     _slew self_hw what end_ count duration w
       = (Return tt, sent w1 [Tx (setpoint_cmd what end_)])).
Proof.
  intros Hwhat Hst.
  destruct (settings_get_valid what (s_settings s) w1 Hwhat) as (start & Hget & _).
  split; intros Hcount; unfold _slew.
  - erewrite bind_return by exact Hst.
    rewrite Hget. erewrite bind_return by reflexivity.
    apply bind_raise. unfold truediv. by rewrite Hcount.
  - erewrite bind_return by exact Hst.
    rewrite Hget. erewrite bind_return by reflexivity.
    unfold truediv. assert ((count =? 0) = false) as -> by lia.
    erewrite bind_return by reflexivity.
    erewrite bind_return by reflexivity.
    rewrite slew_fn_valid by done.
    erewrite bind_return by reflexivity.
    assert (Z.to_nat count = 0%nat) as -> by lia.
    erewrite bind_return by reflexivity.
    by apply setter_run.
Qed.

(** X6: when the step interval [duration / count] is negative, the slew
    writes its first ramp value and then raises the [ValueError] of
    [time.sleep]; the command for the target value is never written. *)
Theorem slew_negative_interval what end_ count duration w s w1 :
  what = "volts" ∨ what = "curr" →
  1 ≤ count →
  status self_hw w = (Return s, w1) →
  negative (Float (step_interval duration count)) = true →
  ∃ start,
    settings_get (s_settings s) what w1 = (Return start, w1)
    ∧ _slew self_hw what end_ count duration w
      = (Raise ValueError,
         sent w1 [Tx (setpoint_cmd what
                        (round3 (fadd start
                                   (fdiv (fsub end_ start) (of_int count)))))]).
Proof.
  intros Hwhat Hcount Hst Hneg.
  destruct (settings_get_valid what (s_settings s) w1 Hwhat) as (start & Hget & _).
  exists start. split; [by rewrite Hget|]. unfold _slew.
  erewrite bind_return by exact Hst.
  rewrite Hget. erewrite bind_return by reflexivity.
  unfold truediv. assert ((count =? 0) = false) as -> by lia.
  erewrite bind_return by reflexivity.
  erewrite bind_return by reflexivity.
  rewrite slew_fn_valid by done.
  erewrite bind_return by reflexivity.
  apply bind_raise.
  destruct (Z.to_nat count) as [|n] eqn:Hn; [lia|].
  cbn [slew_loop].
  erewrite bind_return by (by apply setter_run).
  apply bind_raise. unfold time_sleep.
  fold (step_interval duration count). by rewrite Hneg.
Qed.

(** ** Status byte *)

#[local] Instance status_dict_eq_dec : EqDecision status_dict.
Proof. solve_decision. Defined.

Lemma status_bits_low_bytes :
  Forall (λ b, status_bits (b + 128) = status_bits b) (seqZ 0 128).
Proof. refine (bool_decide_unpack _ _). vm_compute. exact I. Qed.

(** X7: bit 7 of the status byte is not decoded: a byte and the same
    byte with bit 7 set give the same flags. *)
Theorem status_bits_ignores_bit7 (s_byte : Z) :
  0 ≤ s_byte < 128 → status_bits (s_byte + 128) = status_bits s_byte.
Proof.
  intros Hb. eapply (proj1 (Forall_forall _ _) status_bits_low_bytes).
  apply elem_of_seqZ. lia.
Qed.

(** ** Frames: what the operations leave alone *)

Lemma grows_refl w : grows w w.
Proof. repeat split; [exists []; by rewrite app_nil_r | lia]. Qed.

Lemma grows_trans w1 w2 w3 : grows w1 w2 → grows w2 w3 → grows w1 w3.
Proof.
  intros ([es1 H1] & Hd1 & Ho1 & Hr1) ([es2 H2] & Hd2 & Ho2 & Hr2).
  repeat split; [|congruence..|lia].
  exists (es1 ++ es2). by rewrite H2, H1, app_assoc.
Qed.

Lemma appends_ret {A} (a : A) : appends (mret a : M A).
Proof. intros w. apply grows_refl. Qed.

Lemma appends_raise {A} e : appends (raise e : M A).
Proof. intros w. apply grows_refl. Qed.

Lemma appends_diverge {A} : appends (diverge : M A).
Proof. intros w. apply grows_refl. Qed.

Lemma appends_bind {A B} (m : M A) (f : A → M B) :
  appends m → (∀ a, appends (f a)) → appends (m ≫= f).
Proof.
  intros Hm Hf w. unfold mbind, M_bind. specialize (Hm w).
  destruct (m w) as [[a|e|] w1]; cbn in *; [|done..].
  eapply grows_trans; [exact Hm|apply Hf].
Qed.

Lemma appends_emit e : appends (emit e).
Proof. intros w. repeat split; [by eexists|cbn; lia]. Qed.

Lemma appends_readline : appends serial_readline.
Proof.
  intros w. repeat split; [exists []; cbn; by rewrite app_nil_r|cbn; lia].
Qed.

Lemma appends_time : appends time_time.
Proof. intros w. apply grows_refl. Qed.

Lemma appends_get_ofh : appends get_ofh.
Proof. intros w. apply grows_refl. Qed.

Lemma appends_sleep d : appends (time_sleep d).
Proof.
  intros w. unfold time_sleep. destruct (negative d); [apply grows_refl|].
  repeat split; [by eexists|cbn; lia].
Qed.

Create HintDb frames discriminated.
#[local] Hint Resolve appends_ret appends_raise appends_diverge appends_emit
  appends_readline appends_time appends_get_ofh appends_sleep : frames.

Ltac frame :=
  repeat first
    [ progress auto with frames
    | apply appends_bind; [|intros ?]
    | match goal with
      | |- appends (match ?x with _ => _ end) => destruct x
      | |- appends (if ?x then _ else _) => destruct x
      end ].

Lemma appends_cmdbn c : appends (_cmdbn c).
Proof. unfold _cmdbn, serial_write. frame. Qed.

Lemma appends_cmds c : appends (_cmds c).
Proof. unfold _cmds, _cmdb. pose proof appends_cmdbn. frame. Qed.

Lemma appends_status : appends (status self_hw).
Proof.
  unfold status, _cmdb, py_float.
  pose proof appends_cmdbn. pose proof appends_cmds. frame.
Qed.

Lemma appends_writerow s labels_only : appends (writerow s labels_only).
Proof. unfold writerow. frame. Qed.

Lemma appends_log_snapshot s first : appends (log_snapshot s first).
Proof. unfold log_snapshot. pose proof appends_writerow. frame. Qed.


Lemma appends_charge_loop fuel a eoc now end_ finished first :
  appends (charge_loop self_hw fuel a eoc now end_ finished first).
Proof.
  revert finished first. induction fuel as [|fuel IH]; intros finished first;
    cbn [charge_loop]; pose proof appends_status; pose proof appends_log_snapshot;
    frame.
Qed.

(** ** The charge session: the edges *)

Lemma commands_armed a w :
  commands (trace (armed a w)) =
    commands (trace w)
      ++ ["OUT0" +:+ LF; setpoint_cmd "volts" (volts a);
          setpoint_cmd "curr" (cc_current a); "OUT1" +:+ LF].
Proof.
  unfold armed. cbn [trace]. rewrite !commands_app. by destruct (log a).
Qed.


(** X9: when the deadline is not ahead of the start ([now < end_time] is
    false, as with [--max-time 0]), the session takes no snapshot at all:
    it arms, switches the output on, and switches it off again. *)
Theorem charge_deadline_not_ahead fuel a w :
  flt (start_time w) (end_time a w) = false →
  charge self_hw fuel a w
    = (Return false, sent (armed a w) (closing (armed a w))).
Proof.
  intros Hguard. rewrite charge_unfold.
  erewrite bind_return; [apply closing_run|].
  destruct fuel; cbn [charge_loop negb andb]; by rewrite Hguard.
Qed.

(** X10: a session that was given a log file and returns has closed it:
    its trace ends with the output-disable command and the closing of the
    file. *)
Theorem charge_return_closes_log fuel a w path finished w' :
  log a = Some path →
  charge self_hw fuel a w = (Return finished, w') →
  ∃ t, trace w' = t ++ [Tx ("OUT0" +:+ LF); Close].
Proof.
  intros Hlog. rewrite charge_unfold. unfold mbind at 1, M_bind at 1.
  pose proof (appends_charge_loop fuel a (eoc_current a) (start_time w)
                (end_time a w) false true (armed a w)) as (_ & _ & Hofh & _).
  destruct (charge_loop _ _ _ _ _ _ _ _ _) as [[f| |] w1]; [|done..].
  rewrite closing_run. intros [= _ <-]. cbn in Hofh.
  exists (trace w1). cbn [trace sent]. unfold closing.
  rewrite Hofh. unfold armed. cbn [ofh]. by rewrite Hlog.
Qed.

Lemma last_poll_queries (l : list string) :
  last (l ++ poll_queries) = Some ("IOUT1?" +:+ LF).
Proof.
  unfold poll_queries.
  change (l ++ ?q) with
    (l ++ ["STATUS?" +:+ LF; "VSET1?" +:+ LF; "ISET1?" +:+ LF; "VOUT1?" +:+ LF]
       ++ ["IOUT1?" +:+ LF]).
  by rewrite app_assoc, last_snoc.
Qed.

(** X11: with a negative check interval, a session whose first poll is
    above the end-of-charge current ends right there with the
    [ValueError] of [time.sleep]: it has written the arming commands and
    the five queries of one poll, and the output is left on. *)
Theorem charge_negative_interval fuel a w :
  check_interval a < 0 →
  flt (start_time w) (end_time a w) = true →
  above_eoc a w 0 →
  (1 ≤ fuel)%nat →
  ∃ w', charge self_hw fuel a w = (Raise ValueError, w')
        ∧ commands (trace w') =
            commands (trace w)
              ++ ["OUT0" +:+ LF; setpoint_cmd "volts" (volts a);
                  setpoint_cmd "curr" (cc_current a); "OUT1" +:+ LF]
              ++ poll_queries
        ∧ ¬ ends_disabled w'.
Proof.
  intros Hci Hguard (i & Hm & Hfle) Hfuel.
  destruct fuel as [|fuel]; [lia|].
  change (poll_current w 0) with (poll_current (armed a w) 0) in Hm.
  rewrite poll_current_0 in Hm.
  destruct (status_measured self_hw (armed a w) i Hm) as (s & Hst & Hcur).
  destruct (log_snapshot_run s true (polled (armed a w)))
    as (first' & rows & Hlog & _ & Hrows).
  assert (commands (trace (sent (polled (armed a w)) rows)) =
            commands (trace w)
              ++ ["OUT0" +:+ LF; setpoint_cmd "volts" (volts a);
                  setpoint_cmd "curr" (cc_current a); "OUT1" +:+ LF]
              ++ poll_queries) as Hcmd.
  { cbn [trace sent polled]. rewrite !commands_app, Hrows, commands_armed.
    rewrite app_nil_r, <- app_assoc. reflexivity. }
  eexists. split; [|split; [exact Hcmd|]].
  - rewrite charge_unfold. apply bind_raise.
    cbn [charge_loop negb andb]. rewrite Hguard.
    erewrite bind_return by exact Hst.
    erewrite bind_return by exact Hlog.
    rewrite Hcur, Hfle. apply bind_raise.
    unfold time_sleep. cbn [negative].
    assert ((check_interval a <? 0) = true) as -> by lia. reflexivity.
  - unfold ends_disabled. rewrite Hcmd, app_assoc, last_poll_queries.
    by intros [=].
Qed.

(** ** The columns of the log *)

(** X12: whatever the snapshot, its header row is the same sixteen
    column names, sorted, and its row of values gives the fields of the
    snapshot in the order of those names. *)
Theorem snapshot_columns (s : snapshot) :
  listify_dict (snapshot_dict s) true = Some (inl <$> csv_header)
  ∧ listify_dict (snapshot_dict s) false = Some (inr <$> csv_row s).
Proof. split; vm_compute; reflexivity. Qed.

End MoreFacts.

(** ** Flattening, leaf by leaf *)

Section FlattenFacts.
Context {V : Type}.
Implicit Types (acc : gmap string V) (l : list (string * V)).

(** Induction over a nested dictionary and the dictionaries inside it. *)
Fixpoint pyobj_nested_ind (P : pyobj V → Prop)
    (Hleaf : ∀ v, P (Leaf v))
    (Hdict : ∀ items, Forall (λ kv, P kv.2) items → P (Dict items))
    (d : pyobj V) : P d :=
  match d with
  | Leaf v => Hleaf v
  | Dict items =>
      Hdict items
        ((fix each (its : list (string * pyobj V))
            : Forall (λ kv, P kv.2) its :=
            match its with
            | [] => List.Forall_nil _
            | kv :: rest =>
                List.Forall_cons _ kv rest
                  (pyobj_nested_ind P Hleaf Hdict kv.2) (each rest)
            end) items)
  end.

Lemma string_app_inj_r (s a b : string) : s +:+ a = s +:+ b → a = b.
Proof.
  induction s as [|c s IH]; [done|].
  change (String c s +:+ ?x) with (String c (s +:+ x)). intros [= H]. auto.
Qed.

#[local] Instance flat_key_inj separator prefix :
  Inj (=) (=) (flat_key separator prefix).
Proof.
  intros a b. unfold flat_key. destruct prefix as [|c r]; [done|].
  intros H. by do 2 apply string_app_inj_r in H.
Qed.

Lemma foldl_insert (g : string → string) acc l :
  foldl (λ a kv, <[g kv.1 := kv.2]> a) acc l
  = list_to_map (reverse (prod_map g id <$> l)) ∪ acc.
Proof.
  revert acc. induction l as [|[k v] l IH]; intros acc.
  - cbn. by rewrite (left_id ∅ (∪)).
  - cbn [foldl fst snd]. rewrite IH, fmap_cons, reverse_cons, list_to_map_app.
    change (list_to_map [prod_map g id (k, v)]) with (<[g k:=v]> (∅ : gmap string V)).
    rewrite insert_empty, <- (assoc_L (∪)).
    by rewrite <- insert_union_singleton_l.
Qed.

Lemma fst_prod_map (g : string → string) l :
  (prod_map g id <$> l).*1 = g <$> l.*1.
Proof. induction l as [|[k v] l IH]; cbn; [done|by rewrite IH]. Qed.

Lemma list_to_map_reverse_items (g : string → string) `{!Inj (=) (=) g}
    (m : gmap string V) :
  list_to_map (reverse (prod_map g id <$> map_to_list m))
  =@{gmap string V} kmap g m.
Proof.
  unfold kmap. apply list_to_map_proper; [|apply reverse_Permutation].
  rewrite fmap_reverse, reverse_Permutation, fst_prod_map.
  apply NoDup_fmap_2; [done|]. apply NoDup_fst_map_to_list.
Qed.

(** X13: the flattened mapping holds the leaves of the nested
    dictionary under their joined names; when two leaves get the same
    name, the one that comes later in insertion order is kept, and a
    nested dictionary without leaves contributes nothing. *)
Theorem flatten_dict_leaves (d : pyobj V) (separator prefix : string) :
  flatten_dict d separator prefix
  = list_to_map (reverse (flat_items d separator prefix)).
Proof.
  revert prefix. induction d as [v|items IH] using pyobj_nested_ind;
    intros prefix; [reflexivity|].
  cbn [flatten_dict flat_items].
  match goal with |- ?f items ∅ = _ => set (comprehension := f) end.
  match goal with |- _ = list_to_map (reverse (?f items)) => set (each := f) end.
  assert (∀ acc, comprehension items acc
                 = list_to_map (reverse (each items)) ∪ acc) as Hgen.
  { induction IH as [|[kk vv] rest Hvv _ IHrest]; intros acc; cbn -[reverse].
    - rewrite reverse_nil. cbn. by rewrite (left_id ∅ (∪)).
    - rewrite IHrest, foldl_insert, list_to_map_reverse_items by apply _.
      cbn -[reverse] in Hvv. rewrite Hvv, kmap_list_to_map by apply _.
      rewrite reverse_app, list_to_map_app, <- fmap_reverse.
      by rewrite (assoc_L (∪)). }
  by rewrite Hgen, (right_id ∅ (∪)).
Qed.

End FlattenFacts.

(** ** The handshake *)

Section InitFacts.
Context {FL : PyFloat}.
Implicit Types (w : world) (p : list item) (s t : string) (cur : option string).

Lemma string_app_assoc s t u : (s +:+ t) +:+ u = s +:+ t +:+ u.
Proof.
  induction s as [|c s IH]; [done|].
  change (String c s +:+ t) with (String c (s +:+ t)).
  change (String c ?x +:+ u) with (String c (x +:+ u)).
  change (String c s +:+ ?y) with (String c (s +:+ y)). by rewrite IH.
Qed.

Lemma string_app_nil_r s : s +:+ "" = s.
Proof.
  induction s as [|c s IH]; [done|].
  change (String c s +:+ "") with (String c (s +:+ "")). by rewrite IH.
Qed.

Lemma extend_push c cur t : extend (push c cur) t = extend cur (String c t).
Proof.
  destruct cur as [x|]; [|done]. cbn. f_equal.
  by rewrite string_app_assoc.
Qed.

Lemma extend_nil cur : extend cur "" = cur.
Proof. destruct cur as [x|]; [|done]. cbn. by rewrite string_app_nil_r. Qed.

Lemma match_lits t p s caps :
  match_here (lits t ++ p) (t +:+ s) None caps = match_here p s None caps.
Proof.
  induction t as [|c t IH]; [done|].
  change (String c t +:+ s) with (String c (t +:+ s)).
  cbn [lits app match_here atom_matches]. by rewrite Ascii.eqb_refl.
Qed.

Lemma match_many_cons a p c s cur caps :
  match_here (Many a :: p) (String c s) cur caps =
    if atom_matches a c then
      match match_here (Many a :: p) s (push c cur) caps with
      | Some r => Some r
      | None => match_here p s (push c cur) caps
      end
    else None.
Proof. reflexivity. Qed.

Lemma match_many_stop p s cur caps :
  no_digit_ahead s = true → match_here (Many Digit :: p) s cur caps = None.
Proof.
  destruct s as [|c s]; [done|]. cbn [no_digit_ahead]. intros Hc.
  rewrite match_many_cons. cbn [atom_matches].
  by destruct (isdigit c).
Qed.

(** [\d+] in front of something that is no digit takes all the digits. *)
Lemma match_many_digits ds p s cur caps r :
  ds ≠ "" → all_digits ds = true → no_digit_ahead s = true →
  match_here p s (extend cur ds) caps = Some r →
  match_here (Many Digit :: p) (ds +:+ s) cur caps = Some r.
Proof.
  revert cur. induction ds as [|d ds IH]; intros cur Hne Hds Hs Hrest; [done|].
  cbn [all_digits] in Hds. apply andb_true_iff in Hds as [Hd Hds].
  change (String d ds +:+ s) with (String d (ds +:+ s)).
  rewrite match_many_cons. cbn [atom_matches]. rewrite Hd.
  rewrite <- extend_push in Hrest.
  destruct ds as [|d' ds'].
  - change ("" +:+ s) with s. rewrite match_many_stop by done.
    by rewrite extend_nil in Hrest.
  - by rewrite (IH (push d cur)).
Qed.

Lemma no_digit_ahead_lit c s :
  isdigit c = false → no_digit_ahead (String c s) = true.
Proof. intros H. cbn. by rewrite H. Qed.

Lemma match_group_open p s cur caps :
  match_here (GroupOpen :: p) s cur caps = match_here p s (Some "") caps.
Proof. reflexivity. Qed.

Lemma match_group_close p s cur caps :
  match_here (GroupClose :: p) s cur caps
  = match_here p s None (caps ++ [default "" cur]).
Proof. reflexivity. Qed.

Lemma match_maybe_take a p c s cur caps r :
  atom_matches a c = true →
  match_here p s (push c cur) caps = Some r →
  match_here (Maybe a :: p) (String c s) cur caps = Some r.
Proof. intros Ha Hr. cbn [match_here]. by rewrite Ha, Hr. Qed.

Lemma extend_open t : extend (Some "") t = Some t.
Proof. reflexivity. Qed.

Lemma re_search_here p s r :
  match_here p s None [] = Some r → re_search p s = Some r.
Proof. intros H. destruct s; cbn [re_search]; by rewrite H. Qed.

(** The pattern, matched against an identification line. *)
Lemma idn_pattern_matches m v1 v2 sn rest :
  m ≠ "" → all_digits m = true →
  v1 ≠ "" → all_digits v1 = true →
  v2 ≠ "" → all_digits v2 = true →
  sn ≠ "" → all_digits sn = true →
  no_digit_ahead rest = true →
  re_search idn_pattern (idn_line m v1 v2 sn +:+ rest)
  = Some [m; v1 +:+ "." +:+ v2; sn].
Proof.
  intros Hm Hmd Hv1 Hv1d Hv2 Hv2d Hsn Hsnd Hrest.
  assert (match_here idn_pattern (idn_line m v1 v2 sn +:+ rest) None []
          = Some [m; v1 +:+ "." +:+ v2; sn]) as H.
  { unfold idn_pattern, idn_line. rewrite !string_app_assoc, match_lits.
    cbn [app]. rewrite match_group_open.
    apply match_many_digits; [done..|by apply no_digit_ahead_lit|].
    rewrite match_group_close, match_lits. cbn [app].
    rewrite match_group_open.
    apply match_many_digits; [done..|by apply no_digit_ahead_lit|].
    change ("." +:+ ?x) with (String "." x).
    apply match_maybe_take; [done|].
    apply match_many_digits; [done..|by apply no_digit_ahead_lit|].
    rewrite match_group_close, match_lits. cbn [app].
    rewrite match_group_open.
    apply match_many_digits; [done..|].
    rewrite match_group_close. cbn [match_here].
    rewrite extend_push, !extend_open. cbn [extend fmap option_fmap option_map].
    cbn [default app]. reflexivity. }
  by apply re_search_here.
Qed.

Lemma all_digits_seven_bit s : all_digits s = true → ascii_ignore s = s.
Proof.
  induction s as [|c s IH]; [done|].
  cbn [all_digits ascii_ignore]. intros [Hc Hs]%andb_true_iff.
  assert ((nat_of_ascii c <? 128)%nat = true) as ->.
  { unfold isdigit in Hc. apply andb_true_iff in Hc as [_ Hc].
    apply Nat.leb_le in Hc. apply Nat.ltb_lt. lia. }
  by rewrite IH.
Qed.

Lemma init_run w :
  __init__ w =
    match re_search idn_pattern (reply w 1) with
    | Some [m1; m2; m3] =>
        (Return {| version := m2; model := "KA" +:+ m1 +:+ "P"; serial := m3 |},
         greeted w)
    | _ =>
        (Raise (Exception ("Could not identify a Korad PSU: " +:+ reply w 1)),
         greeted w)
    end.
Proof.
  unfold __init__, _cmdb, reply.
  erewrite bind_return by (erewrite bind_return by apply cmdbn_run;
                           erewrite bind_return by reflexivity; reflexivity).
  rewrite (bind_return _ _ _ _ _ (cmds_run _ _)).
  cbn [device reads clock ofh trace sent Nat.add].
  assert (∀ A (o : outcome A) w1 w2, w1 = w2 → (o, w1) = (o, w2)) as Hw
    by (by intros ???? ->).
  destruct (re_search idn_pattern _) as [[|m1 [|m2 [|m3 [|]]]]|];
    apply Hw; unfold greeted; f_equal; by rewrite <- app_assoc.
Qed.

(** X14: the identification line of a supply is read back field by
    field: for a model number, a version [v1.v2] and a serial number made
    of digits, the handshake returns the model [KA<m>P], the version and
    the serial number, having written an empty command and the
    identification query. *)
Theorem init_identifies w m v1 v2 sn rest :
  m ≠ "" → all_digits m = true →
  v1 ≠ "" → all_digits v1 = true →
  v2 ≠ "" → all_digits v2 = true →
  sn ≠ "" → all_digits sn = true →
  no_digit_ahead rest = true → ascii_ignore rest = rest →
  device w (S (reads w)) = idn_line m v1 v2 sn +:+ rest →
  __init__ w =
    (Return {| version := v1 +:+ "." +:+ v2;
               model := "KA" +:+ m +:+ "P";
               serial := sn |},
     greeted w).
Proof.
  intros Hm Hmd Hv1 Hv1d Hv2 Hv2d Hsn Hsnd Hrest Hascii Hdev.
  rewrite init_run. unfold reply. cbn [Nat.add]. rewrite Hdev.
  unfold idn_line. rewrite !ascii_ignore_app, Hascii.
  rewrite (all_digits_seven_bit m), (all_digits_seven_bit v1),
    (all_digits_seven_bit v2), (all_digits_seven_bit sn) by done.
  change (ascii_ignore "KORAD KA") with "KORAD KA".
  change (ascii_ignore "P V") with "P V".
  change (ascii_ignore ".") with ".".
  change (ascii_ignore " SN:") with " SN:".
  rewrite <- !string_app_assoc.
  rewrite (string_app_assoc _ " SN:"), (string_app_assoc _ v2),
    (string_app_assoc _ "."), (string_app_assoc _ v1),
    (string_app_assoc _ "P V"), (string_app_assoc _ m).
  fold (idn_line m v1 v2 sn).
  rewrite idn_pattern_matches by done.
  by rewrite !string_app_assoc.
Qed.

(** X15: the handshake never raises its "no response" exception, because
    the reply it tests is a string and not [None]; a supply that does not
    answer the identification query is reported as unidentified, with an
    empty reply in the message. *)
Theorem init_no_response w :
  (__init__ w).1 ≠ Raise (Exception "Could not get response from PSU")
  ∧ (device w (S (reads w)) = "" →
     __init__ w =
       (Raise (Exception "Could not identify a Korad PSU: "), greeted w)).
Proof.
  split.
  - rewrite init_run.
    destruct (re_search idn_pattern _) as [[|m1 [|m2 [|m3 [|]]]]|]; cbn;
      try done; intros [= H]; cbv [String.append] in H; discriminate.
  - intros Hdev. rewrite init_run. unfold reply. cbn [Nat.add].
    by rewrite Hdev.
Qed.

End InitFacts.

(** ** The data logger and the command-line tool *)

Section AppFacts.
Context {FL : PyFloat}.
Variable self_hw : hw_dict.
Variable localtime : float → Z * Z * Z.
Implicit Types (w : world).

Lemma passive_ret {A} (a : A) : passive (mret a : M A).
Proof. intros w. exists []. by rewrite app_nil_r. Qed.

Lemma passive_raise {A} e : passive (raise e : M A).
Proof. intros w. exists []. by rewrite app_nil_r. Qed.

Lemma passive_diverge {A} : passive (diverge : M A).
Proof. intros w. exists []. by rewrite app_nil_r. Qed.

Lemma passive_bind {A B} (m : M A) (f : A → M B) :
  passive m → (∀ a, passive (f a)) → passive (m ≫= f).
Proof.
  intros Hm Hf w. unfold mbind, M_bind. destruct (Hm w) as (es & Hes & Hq).
  destruct (m w) as [[a|e|] w1]; cbn in *; [|by exists es..].
  destruct (Hf a w1) as (es' & Hes' & Hq').
  exists (es ++ es'). rewrite Hes', Hes, app_assoc. split; [done|].
  rewrite commands_app. by apply Forall_app.
Qed.

Lemma passive_time : passive time_time.
Proof. intros w. exists []. by rewrite app_nil_r. Qed.

Lemma passive_sleep d : passive (time_sleep d).
Proof.
  intros w. unfold time_sleep. destruct (negative d).
  - exists []. by rewrite app_nil_r.
  - by exists [Sleep d].
Qed.

Lemma passive_writerow s labels_only : passive (writerow s labels_only).
Proof.
  intros w. destruct (writerow_run s labels_only w) as [cells ->].
  by exists [Row cells].
Qed.

Lemma passive_status : passive (status self_hw).
Proof.
  intros w. rewrite status_unfold.
  assert (∀ n, Forall (λ c, c ∈ poll_queries) (commands (Tx <$> take n poll_queries)))
    as Htake.
  { intros n. do 6 (destruct n as [|n]; [cbn; repeat constructor|]).
    cbn; repeat constructor. }
  destruct (device w (reads w)) as [|c r].
  { exists [Tx ("STATUS?" +:+ LF)]. split; [done|]. apply (Htake 1%nat). }
  destruct (float_of_str (reply w 1)); [|by eexists].
  destruct (float_of_str (reply w 2)); [|by eexists].
  destruct (float_of_str (reply w 3)); [|by eexists].
  destruct (float_of_str (reply w 4));
    (exists (Tx <$> poll_queries); split; [done|apply (Htake 5%nat)]).
Qed.

Lemma passive_sample_loop fuel end_ period now deadline first :
  passive (sample_loop self_hw fuel end_ period now deadline first).
Proof.
  revert now deadline first.
  induction fuel as [|fuel IH]; intros now deadline first; cbn [sample_loop].
  - destruct (flt now end_); [apply passive_diverge|apply passive_ret].
  - destruct (flt now end_); [|apply passive_ret].
    apply passive_bind; [apply passive_time|intros now'].
    apply passive_bind; [apply passive_status|intros data].
    apply passive_bind.
    { unfold writeLine. apply passive_bind; [|intros _; apply passive_writerow].
      destruct first; [apply passive_writerow|apply passive_ret]. }
    intros _. apply passive_bind; [|intros _; apply IH].
    destruct (flt _ _); [apply passive_sleep|apply passive_ret].
Qed.

(** The body of [with open(...)] in [go]. *)
Lemma passive_log_body fuel a :
  passive (now ← time_time;
           period ← float_div (of_int 1) (log_rate a);
           sample_loop self_hw fuel (fadd now (log_duration a)) period now
             (fadd now period) true).
Proof.
  apply passive_bind; [apply passive_time|intros now].
  apply passive_bind; [|intros period; apply passive_sample_loop].
  unfold float_div. destruct (_ && _); [apply passive_raise|apply passive_ret].
Qed.

Lemma with_open_run path (body : M unit) w :
  with_open path body w =
    match body (opened path w) with
    | (Return _, w') => (Return tt, sent w' [Close])
    | (Raise e, w') => (Raise e, sent w' [Close])
    | (Diverge, w') => (Diverge, w')
    end.
Proof.
  unfold with_open.
  erewrite bind_return by reflexivity.
  erewrite bind_return by reflexivity.
  match goal with |- context [body ?w0] => change w0 with (opened path w) end.
  by destruct (body (opened path w)) as [[[]|e|] w1].
Qed.

(** X16: the data logger only observes: every command it writes to the
    supply is one of the five queries of a snapshot, so it never changes a
    setpoint or the output switch, however the run ends. *)
Theorem log_go_passive fuel a w :
  ∃ es, trace (log_go self_hw fuel a w).2 = trace w ++ es
        ∧ Forall (λ c, c ∈ poll_queries) (commands es).
Proof.
  unfold log_go. rewrite with_open_run.
  destruct (passive_log_body fuel a (opened (log_output a) w)) as (es & Hes & Hq).
  cbn [trace opened] in Hes. revert Hes.
  match goal with |- context [match ?r with _ => _ end] =>
    destruct r as [[[]|e|] w1] end; cbn [snd trace sent]; intros Hes.
  - exists ([Open (log_output a)] ++ es ++ [Close]).
    rewrite Hes, <- !app_assoc. split; [done|].
    rewrite !commands_app. cbn. by rewrite app_nil_r.
  - exists ([Open (log_output a)] ++ es ++ [Close]).
    rewrite Hes, <- !app_assoc. split; [done|].
    rewrite !commands_app. cbn. by rewrite app_nil_r.
  - exists ([Open (log_output a)] ++ es).
    rewrite Hes, <- !app_assoc. split; [done|].
    by rewrite !commands_app.
Qed.

(** X17: the data logger closes its file on every exit: whether the run
    returns or ends with an exception, for instance of a snapshot that
    found the supply silent, the last thing it has done is close the
    file. *)
Theorem log_go_closes_file fuel a w o w' :
  log_go self_hw fuel a w = (o, w') →
  o ≠ Diverge →
  last (trace w') = Some Close.
Proof.
  unfold log_go. rewrite with_open_run.
  match goal with |- context [match ?r with _ => _ end] =>
    destruct r as [[[]|e|] w1] end;
    intros [= <- <-] Ho; [| |done]; cbn [trace sent]; by rewrite last_snoc.
Qed.

(** X18: a sample rate of zero makes the logger end with
    [ZeroDivisionError] before it asks the supply anything; the file it
    had opened is closed, empty. *)
Theorem log_go_zero_rate fuel a w :
  fle (log_rate a) (of_int 0) && fle (of_int 0) (log_rate a) = true →
  ∃ w', log_go self_hw fuel a w = (Raise ZeroDivisionError, w')
        ∧ trace w' = trace w ++ [Open (log_output a); Close]
        ∧ reads w' = reads w.
Proof.
  intros Hrate. unfold log_go. rewrite with_open_run.
  erewrite bind_return by reflexivity.
  erewrite bind_raise by (unfold float_div; rewrite Hrate; reflexivity).
  eexists. split; [reflexivity|]. cbn. by rewrite <- app_assoc.
Qed.

(** *** The command-line tool *)

(** X19: the protection switches of the command-line tool: [--ovp-on]
    writes [OVP1] and then [OVP0], [--ocp-on] writes [OCP1] and then
    [OCP0], so either leaves its protection switched off; [--ovp-off] and
    [--ocp-off] are not looked at, with any arguments. *)
Theorem ctl_protection_switches fuel a w :
  (protection_only a →
   ctl_go self_hw localtime fuel a w =
     (Return tt,
      sent w (Tx <$> (if ctl_ovp_on a then ["OVP1" +:+ LF; "OVP0" +:+ LF] else [])
                       ++ (if ctl_ocp_on a then ["OCP1" +:+ LF; "OCP0" +:+ LF]
                           else []))))
  ∧ (∀ ovp_off ocp_off,
       ctl_go self_hw localtime fuel (with_off_flags a ovp_off ocp_off) w
       = ctl_go self_hw localtime fuel a w).
Proof.
  split; [|reflexivity].
  intros (Hv & Hc & He & Hd & Hr & Hs & Hj & Hst & Hcl). unfold ctl_go.
  rewrite Hv, Hc, He, Hd, Hr, Hs, Hj, Hst, Hcl.
  unfold when, enableOVP, enableOCP, _cmdbn, serial_write, emit, sent,
    mbind, M_bind, mret, M_ret.
  destruct w, (ctl_ovp_on a), (ctl_ocp_on a); cbn;
    f_equal; f_equal; rewrite <- ?app_assoc, ?app_nil_r; reflexivity.
Qed.




End AppFacts.

(** * Exact arithmetic: rounding and the sampling schedule *)

From Stdlib Require Import Lqa Qround.

Module Exact.
Import QModel.
Local Open Scope Q_scope.

Implicit Types (x y q : Q) (w : world).




Lemma fsub_eq x y : fsub x y == x - y.
Proof. apply Qred_correct. Qed.





(** ** The sampling schedule under an ideal clock *)





End Exact.

(** * The further properties on concrete inputs *)

Module MoreRuns.
Import QModel Runs.

(** A supply that answers the handshake. *)
Definition identified : world :=
  world0 (script [""; "KORAD KA3005P V4.2 SN:12345678"]) 0.

(** A supply that answers nothing. *)
Definition silent : world := world0 (script []) 0.

(** The charge arguments of [args0] with other limits and a log file. *)
Definition args_with (max_time check_interval : Z) (log : option string) : args :=
  {| capacity := Qmake 22 10; rate := Qmake 1 2; volts := Qmake 42 10;
     cutoff := Qmake 2 100; max_time := max_time;
     check_interval := check_interval; log := log |}.

(** [--rate 2 --duration 1] and [--rate 0]. *)
Definition two_hertz : log_args :=
  {| log_output := "out.csv"; log_rate := Qmake 2 1; log_duration := Qmake 1 1 |}.

Definition zero_hertz : log_args :=
  {| log_output := "out.csv"; log_rate := Qmake 0 1; log_duration := Qmake 1 1 |}.

(** [--ovp-on --ocp-off] *)
Definition ovp_on_request : ctl_args :=
  {| ctl_volts := None; ctl_curr := None; ctl_slew := None;
     ctl_enable := false; ctl_disable := false; ctl_status := false;
     ctl_json := false; ctl_clock := false; ctl_recall := None;
     ctl_store := None; ctl_ocp_on := false; ctl_ocp_off := true;
     ctl_ovp_on := true; ctl_ovp_off := false |}.


(** Local time in a zone without offset: the seconds of the day. *)
Definition utc (t : Q) : Z * Z * Z :=
  let s := (Qnum t / Zpos (Qden t)) mod 86400 in
  (s / 3600, (s / 60) mod 60, s mod 60).

Lemma bench_status :
  ∃ s, status (FL:=Qfloat) hw0 bench = (Return s, polled bench).
Proof.
  destruct (status_measured (FL:=Qfloat) hw0 bench (Qmake 1099 1000) eq_refl)
    as (s & Hst & _).
  by exists s.
Qed.

Lemma cmdbn_seven_bit_witness : ascii_ignore "OUT1" = "OUT1".
Proof.
  apply (cmdbn_seven_bit (FL:=Qfloat) "OUT1" bench).
  repeat constructor; unfold seven_bit; cbn; lia.
Defined.

Lemma status_returns_witness :
  ∃ s w', status (FL:=Qfloat) hw0 bench = (Return s, w')
          ∧ w' = polled bench
          ∧ Some (Qmake 3 1) = Some (set_volts (s_settings s))
          ∧ s_hw s = hw0.
Proof.
  destruct bench_status as [s Hst].
  destruct (status_returns (FL:=Qfloat) hw0 bench s (polled bench) Hst)
    as (Hw & _ & Hv & _ & _ & _ & _ & Hhw & _).
  exists s, (polled bench). split; [exact Hst|]. split; [exact Hw|].
  split; [exact Hv | exact Hhw].
Defined.

Lemma slew_invalid_selector_witness :
  _slew (FL:=Qfloat) hw0 "power" (Qmake 5 1) 5 (Int 5) bench
  = (Raise (KeyError "power"), polled bench).
Proof.
  destruct bench_status as [s Hst].
  apply (slew_invalid_selector (FL:=Qfloat) hw0 "power" (Qmake 5 1) 5 (Int 5)
           bench s (polled bench)); [discriminate | discriminate | exact Hst].
Defined.

Lemma slew_nonpositive_count_witness :
  _slew (FL:=Qfloat) hw0 "volts" (Qmake 5 1) 0 (Int 5) bench
    = (Raise ZeroDivisionError, polled bench)
  ∧ _slew (FL:=Qfloat) hw0 "volts" (Qmake 5 1) (-3) (Int 5) bench
    = (Return tt, sent (polled bench) [Tx (setpoint_cmd "volts" (Qmake 5 1))]).
Proof.
  destruct bench_status as [s Hst]. split.
  - apply (proj1 (slew_nonpositive_count (FL:=Qfloat) hw0 "volts" (Qmake 5 1) 0
                    (Int 5) bench s (polled bench) ltac:(by left) Hst)).
    reflexivity.
  - apply (proj2 (slew_nonpositive_count (FL:=Qfloat) hw0 "volts" (Qmake 5 1) (-3)
                    (Int 5) bench s (polled bench) ltac:(by left) Hst)).
    lia.
Defined.

Lemma slew_negative_interval_witness :
  ∃ start,
    _slew (FL:=Qfloat) hw0 "volts" (Qmake 5 1) 5 (Int (-5)) bench
    = (Raise ValueError,
       sent (polled bench)
         [Tx (setpoint_cmd "volts"
                (round3 (fadd start (fdiv (fsub (Qmake 5 1) start) (of_int 5)))))]).
Proof.
  destruct bench_status as [s Hst].
  destruct (slew_negative_interval (FL:=Qfloat) hw0 "volts" (Qmake 5 1) 5
              (Int (-5)) bench s (polled bench)) as (start & _ & Hrun).
  - by left.
  - lia.
  - exact Hst.
  - reflexivity.
  - exists start. exact Hrun.
Defined.

Lemma status_bits_ignores_bit7_witness :
  status_bits (65 + 128) = status_bits 65.
Proof. apply (status_bits_ignores_bit7 65). lia. Defined.

Lemma charge_deadline_not_ahead_witness :
  charge (FL:=Qfloat) hw0 0 (args_with 0 60 None) tapering
  = (Return false,
     sent (armed (args_with 0 60 None) tapering)
       (closing (armed (args_with 0 60 None) tapering))).
Proof. apply charge_deadline_not_ahead. reflexivity. Defined.

Lemma logged_session_returns :
  (charge (FL:=Qfloat) hw0 3 (args_with 4 60 (Some "log.csv")) tapering).1
  = Return true.
Proof. vm_compute. reflexivity. Qed.

Lemma charge_return_closes_log_witness :
  ∃ t, trace (charge (FL:=Qfloat) hw0 3 (args_with 4 60 (Some "log.csv")) tapering).2
       = t ++ [Tx ("OUT0" +:+ LF); Close].
Proof.
  pose proof logged_session_returns as Hret.
  destruct (charge hw0 3 (args_with 4 60 (Some "log.csv")) tapering)
    as [o w'] eqn:Hrun.
  cbn [fst snd] in *. subst o.
  exact (charge_return_closes_log (FL:=Qfloat) hw0 3
           (args_with 4 60 (Some "log.csv")) tapering "log.csv" true w'
           eq_refl Hrun).
Defined.

Lemma charge_negative_interval_witness :
  ∃ w', charge (FL:=Qfloat) hw0 1 (args_with 4 (-1) None) tapering
          = (Raise ValueError, w')
        ∧ ¬ ends_disabled w'.
Proof.
  destruct (charge_negative_interval (FL:=Qfloat) hw0 1 (args_with 4 (-1) None)
              tapering) as (w' & Hrun & _ & Hon).
  - cbn. lia.
  - reflexivity.
  - exists (Qmake 1 1). by split.
  - lia.
  - exists w'. split; [exact Hrun | exact Hon].
Defined.

Lemma init_identifies_witness :
  __init__ (FL:=Qfloat) identified
  = (Return {| version := "4.2"; model := "KA3005P"; serial := "12345678" |},
     greeted identified).
Proof.
  by apply (init_identifies (FL:=Qfloat) identified "3005" "4" "2" "12345678" "").
Defined.

Lemma init_no_response_witness :
  __init__ (FL:=Qfloat) silent
  = (Raise (Exception "Could not identify a Korad PSU: "), greeted silent).
Proof. apply (init_no_response (FL:=Qfloat) silent). reflexivity. Defined.

Lemma silent_logger_raises :
  (log_go (FL:=Qfloat) hw0 3 two_hertz silent).1 = Raise IndexError.
Proof. vm_compute. reflexivity. Qed.

Lemma log_go_closes_file_witness :
  last (trace (log_go (FL:=Qfloat) hw0 3 two_hertz silent).2) = Some Close.
Proof.
  pose proof silent_logger_raises as Hret.
  destruct (log_go hw0 3 two_hertz silent) as [o w'] eqn:Hrun.
  cbn [fst snd] in *. subst o.
  by apply (log_go_closes_file (FL:=Qfloat) hw0 3 two_hertz silent
              (Raise IndexError) w' Hrun).
Defined.

Lemma log_go_zero_rate_witness :
  ∃ w', log_go (FL:=Qfloat) hw0 3 zero_hertz bench = (Raise ZeroDivisionError, w')
        ∧ trace w' = trace bench ++ [Open "out.csv"; Close]
        ∧ reads w' = reads bench.
Proof. apply (log_go_zero_rate (FL:=Qfloat) hw0 3 zero_hertz bench). reflexivity. Defined.

Lemma ctl_protection_switches_witness :
  ctl_go (FL:=Qfloat) hw0 utc 0 ovp_on_request bench
  = (Return tt, sent bench [Tx ("OVP1" +:+ LF); Tx ("OVP0" +:+ LF)]).
Proof.
  apply (proj1 (ctl_protection_switches (FL:=Qfloat) hw0 utc 0 ovp_on_request bench)).
  by repeat split.
Defined.




End MoreRuns.
